(** * RAG-ChatBot: the question splitter, the response rewriter, the chat
      orchestrator and the command line of [main.py], and the answer
      reader, the validator and the test runner of
      [comprehensive_rag_test.py], embedded and verified.

    Python [str] values are modelled as [string]; a character is one of the
    code points U+0000..U+00FF, so [lower] and [strip] below are Python's
    [str.lower] and [str.strip] on that range.  The hosted model, the vector
    store and the file system are the environment: their answers are the
    fields of [World], and what [chat] does to them is recorded as a trace
    of [event]s.  The text the test script reads back holds the arrow and
    the diamond that [chat] prints, which lie beyond U+00FF: there a text
    is the list of its code points, [PyText.text]. *)

From Stdlib Require Import String Ascii List Bool Arith NArith Lia.
From Stdlib Require Import DecimalString.
Import ListNotations.
Open Scope string_scope.
Open Scope bool_scope.

(** ** Python string primitives *)

Module PyStr.

(** The line feed, ['\n']. *)
Definition nl : string := String (ascii_of_nat 10) EmptyString.

(** [str.lower] on one code point: A-Z, and the Latin-1 capitals
    U+00C0..U+00DE except the multiplication sign U+00D7. *)
Definition lower_char (c : ascii) : ascii :=
  let n := nat_of_ascii c in
  if (((65 <=? n) && (n <=? 90))
      || ((192 <=? n) && (n <=? 222) && negb (n =? 215)))%nat
  then ascii_of_nat (n + 32)
  else c.

(** [str.isspace] on one code point: TAB..CR, FS..US, SPACE, NEL, NBSP. *)
Definition is_space (c : ascii) : bool :=
  let n := nat_of_ascii c in
  (((9 <=? n) && (n <=? 13)) || ((28 <=? n) && (n <=? 32))
   || (n =? 133) || (n =? 160))%nat.

Fixpoint lower (s : string) : string :=
  match s with
  | EmptyString => EmptyString
  | String c s' => String (lower_char c) (lower s')
  end.

(** [s.startswith(p)] *)
Definition startswith (s p : string) : bool := String.prefix p s.

(** [p in s] *)
Fixpoint contains (s p : string) : bool :=
  startswith s p ||
  match s with
  | EmptyString => false
  | String _ s' => contains s' p
  end.

(** [s[:n]] *)
Fixpoint take (n : nat) (s : string) : string :=
  match n, s with
  | S k, String c s' => String c (take k s')
  | _, _ => EmptyString
  end.

(** [s[n:]] *)
Fixpoint drop (n : nat) (s : string) : string :=
  match n, s with
  | S k, String _ s' => drop k s'
  | _, _ => s
  end.

(** The optional [count] argument of [str.replace]: [None] is no limit. *)
Definition spend (count : option nat) : option nat :=
  match count with
  | Some n => Some (pred n)
  | None => None
  end.

Definition exhausted (count : option nat) : bool :=
  match count with
  | Some 0 => true
  | _ => false
  end.

(** [s.replace(old, new, count)] for a non-empty [old]: a left-to-right scan
    over non-overlapping occurrences.  [skip] counts the characters of the
    occurrence just replaced that are still to be passed over. *)
Fixpoint replace_scan (old new : string) (count : option nat) (skip : nat)
    (s : string) : string :=
  match s with
  | EmptyString => EmptyString
  | String c s' =>
      match skip with
      | S k => replace_scan old new count k s'
      | 0 =>
          if negb (exhausted count) && startswith s old
          then new ++ replace_scan old new (spend count) (String.length old - 1) s'
          else String c (replace_scan old new count 0 s')
      end
  end.

(** [s.replace(old, new, count)] for the empty [old]: [new] goes before
    every character and at the end. *)
Fixpoint replace_empty (new : string) (count : option nat) (s : string)
    : string :=
  if exhausted count then s
  else new ++ match s with
              | EmptyString => EmptyString
              | String c s' => String c (replace_empty new (spend count) s')
              end.

Definition replace_count (old new : string) (count : option nat)
    (s : string) : string :=
  match old with
  | EmptyString => replace_empty new count s
  | String _ _ => replace_scan old new count 0 s
  end.

(** [s.replace(old, new)] *)
Definition replace (old new s : string) : string :=
  replace_count old new None s.

(** [s.split(sep)] for a non-empty [sep] (Python raises [ValueError] on an
    empty one; every call site passes a literal).  The head of the result is
    the fragment under construction. *)
Fixpoint split_scan (sep : string) (skip : nat) (s : string) : list string :=
  match s with
  | EmptyString => [EmptyString]
  | String c s' =>
      match skip with
      | S k => split_scan sep k s'
      | 0 =>
          if startswith s sep
          then EmptyString :: split_scan sep (String.length sep - 1) s'
          else match split_scan sep 0 s' with
               | h :: t => String c h :: t
               | [] => [String c EmptyString]
               end
      end
  end.

Definition split (sep s : string) : list string := split_scan sep 0 s.

Fixpoint lstrip (s : string) : string :=
  match s with
  | EmptyString => EmptyString
  | String c s' => if is_space c then lstrip s' else s
  end.

Fixpoint rstrip (s : string) : string :=
  match s with
  | EmptyString => EmptyString
  | String c s' =>
      match rstrip s' with
      | EmptyString => if is_space c then EmptyString else String c EmptyString
      | r => String c r
      end
  end.

(** [s.strip()] *)
Definition strip (s : string) : string := rstrip (lstrip s).

(** [sep.join(parts)] *)
Definition join (sep : string) (parts : list string) : string :=
  String.concat sep parts.

(** [any(p in s for p in ps)] *)
Definition contains_any (s : string) (ps : list string) : bool :=
  existsb (contains s) ps.

(** [any(s.startswith(p) for p in ps)] *)
Definition startswith_any (s : string) (ps : list string) : bool :=
  existsb (startswith s) ps.

(** [bool(s)]: a string is truthy when it is not empty. *)
Definition truthy (s : string) : bool :=
  match s with
  | EmptyString => false
  | String _ _ => true
  end.

End PyStr.

Import PyStr.

(** ** The response rewriter, [enhance_response_authority] *)

Definition no_answer_phrases : list string :=
  [ "cannot answer"; "not available"; "don't have information" ].

Definition formal_phrases : list string :=
  [ "According to the documentation, ";
    "This is explicitly stated in the documentation. ";
    "The system documentation specifies that ";
    "As documented in the system, ";
    "The documentation indicates ";
    "As outlined in the documentation, ";
    "The official procedure is: ";
    "Documented steps are: ";
    "System requirements include: ";
    "These are the documented requirements";
    "This process is fully documented";
    "This information is documented in the official system documentation." ].

Definition verbose_phrases : list string :=
  [ "you need to follow these steps:";
    "the process is as follows:";
    "the way to do this is:" ].

Definition skip_phrases : list string :=
  [ "that's it!"; "you've successfully"; "once you've filled" ].

Definition starters : list string :=
  [ "to"; "you"; "here"; "first"; "steps"; "simply"; "just"; "when"; "if";
    "1."; "yes"; "no"; "there are"; "the system" ].

Definition action_words : list string :=
  [ "click"; "press"; "go to"; "navigate" ].

Definition equipment_words : list string :=
  [ "machine"; "vehicle"; "trailer"; "equipment" ].

Definition fallback_answer : string :=
  "I can help you with that based on the system documentation.".

Definition prefix_action : string := "To do this: ".
Definition prefix_steps : string := "Steps:" ++ nl.
Definition prefix_equipment : string := "Here's how equipment works: ".

(** Line 177: the guard of the early return. *)
Definition is_no_answer (response : string) : bool :=
  contains (lower response) "cannot answer"
  || contains (lower response) "not available"
  || contains (lower response) "don't have information".

(** Lines 196-197 and 225-226: [for phrase in ps], replace [phrase] in
    [response] by the empty string. *)
Definition remove_all (ps : list string) (response : string) : string :=
  fold_left (fun r phrase => replace phrase EmptyString r) ps response.

(** Lines 199-201. *)
Definition strip_markdown (response : string) : string :=
  replace "* " EmptyString
    (replace "- " EmptyString (replace "**" EmptyString response)).

(** Lines 203-208. *)
Definition soften (response : string) : string :=
  let response := replace "The system requires" "You need to" response in
  let response := replace "The documentation specifies" EmptyString response in
  let response := replace "official system procedures" "steps" response in
  let response := replace "documented procedures" "steps" response in
  let response := replace "cannot be added" "can't be used in" response in
  replace "can only be added" "can only be used in" response.

(** Lines 231-236: a stripped line is kept when it is not empty and holds no
    skip phrase. *)
Definition keep_line (line : string) : bool :=
  truthy line && negb (contains_any (lower line) skip_phrases).

(** Lines 228-238. *)
Definition clean_lines (response : string) : string :=
  join nl (filter keep_line (map strip (split nl response))).

(** Lines 243-251: at most one opener is put in front. *)
Definition add_opener (response : string) : string :=
  if negb (startswith_any (lower response) starters) then
    if contains_any (take 30 (lower response)) action_words
    then prefix_action ++ response
    else if startswith (lower response) "1."
    then prefix_steps ++ response
    else if contains_any (take 20 (lower response)) equipment_words
    then prefix_equipment ++ response
    else response
  else response.

(** Lines 181-238: everything between the early return and the emptiness
    test.  The [if]/[elif] of lines 214-217 only executes [pass]. *)
Definition rewrite_body (response : string) : string :=
  clean_lines
    (remove_all verbose_phrases
       (strip (soften (strip_markdown (remove_all formal_phrases response))))).

Definition enhance_response_authority (response : string) : string :=
  if is_no_answer response then response
  else
    let response := rewrite_body response in
    if negb (truthy response) then fallback_answer
    else add_opener response.

(** ** Effects: exceptions and the trace of what [chat] does *)

(** A raised instance of [Exception] or of a subclass, with its class name
    and its [str()].  What [except Exception] does not catch (the
    interpreter's [KeyboardInterrupt] and [SystemExit]) is not modelled. *)
Record exn : Type := mk_exn { exn_class : string; exn_text : string }.

Inductive outcome (A : Type) : Type :=
| Returned (a : A)
| Raised (e : exn).

Arguments Returned {A} a.
Arguments Raised {A} e.

(** What the process does to the outside, in order. *)
Inductive event : Type :=
| BuildChain
| AskDecomposer (question : string)
| PrintSplitFailure (e : exn)
| PrintQuestion (i : nat) (q : string)
| AskChain (q : string)
| PrintAnswer (answer : string).

(** The environment of one run.  [decomposer_reply] is what lines 121-140
    produce (the model call and its comma-separated parse), [chain_reply i q]
    is [response["answer"]] of the i-th query; each may raise. *)
Record World : Type := mk_world {
  persist_dir_exists : bool;
  build_chain_reply : outcome unit;
  decomposer_reply : string -> outcome (list string);
  chain_reply : nat -> string -> outcome string
}.

Module Run.

(** A computation: the events it emitted, and how it ended. *)
Definition M (A : Type) : Type := (list event * outcome A)%type.

Definition ret {A} (a : A) : M A := ([], Returned a).

Definition raise {A} (e : exn) : M A := ([], Raised e).

Definition emit (ev : event) : M unit := ([ev], Returned tt).

Definition bind {A B} (m : M A) (k : A -> M B) : M B :=
  match m with
  | (t, Returned a) => let (t', r) := k a in ((t ++ t')%list, r)
  | (t, Raised e) => (t, Raised e)
  end.

(** [try: m  except Exception as e: h e] *)
Definition try_except {A} (m : M A) (h : exn -> M A) : M A :=
  match m with
  | (t, Returned a) => (t, Returned a)
  | (t, Raised e) => let (t', r) := h e in ((t ++ t')%list, r)
  end.

(** An external call: the event, then the environment's reply. *)
Definition call {A} (ev : event) (reply : outcome A) : M A :=
  ([ev], reply).

Definition trace_of {A} (m : M A) : list event := fst m.
Definition result_of {A} (m : M A) : outcome A := snd m.

End Run.

Import Run.

Notation "x <- m ;; k" := (bind m (fun x => k))
  (at level 61, m at next level, right associativity).
Notation "m ;;; k" := (bind m (fun _ => k))
  (at level 61, right associativity).

(** ** The question splitter, [split_question_into_parts] *)

(** Lines 145-151. *)
Definition base_context_of (first : string) : string :=
  if contains (lower first) "tiling" then "tiling "
  else if contains (lower first) "repair" then "repair "
  else if contains (lower first) "excavation" then "excavation "
  else EmptyString.

(** Lines 158-167: the body of the loop for a fragment after the first. *)
Definition repair_part (base_context part : string) : string :=
  let part := strip part in
  if truthy base_context && negb (contains (lower part) (strip base_context))
  then
    if startswith part "how to"
    then replace_count "how to" ("how to " ++ base_context) (Some 1) part
    else if startswith part "what"
    then
      if contains part "convert"
      then replace "convert it to" ("convert " ++ base_context ++ "lead to") part
      else part
    else if startswith part "which"
    then
      if contains part "can do"
      then replace "this steps" ("the " ++ base_context ++ "lead steps") part
      else part
    else part
  else part.

(** Lines 153-168: [for i, part in enumerate(parts)], from index [i]. *)
Fixpoint split_loop (base_context : string) (i : nat) (parts : list string)
    : list string :=
  match parts with
  | [] => []
  | part :: rest =>
      (if (i =? 0)%nat then strip part else repair_part base_context part)
      :: split_loop base_context (S i) rest
  end.

(** Lines 143-170, once [parts] has more than one fragment. *)
Definition literal_split (parts : list string) : list string :=
  split_loop (base_context_of (nth 0 parts EmptyString)) 0 parts.

Definition split_question_into_parts (w : World) (question : string)
    : M (list string) :=
  result <- call (AskDecomposer question) (decomposer_reply w question) ;;
  if negb (0 <? List.length result)%nat || (List.length result =? 1)%nat then
    let parts := split " and " question in
    if (1 <? List.length parts)%nat then ret (literal_split parts)
    else ret result
  else ret result.

(** ** The orchestrator, [chat] *)

Definition no_store_error : exn :=
  mk_exn "RuntimeError"
    "No vector store found at chroma_db. Run `python main.py ingest` first.".

(** Lines 273-277: [for i, q in enumerate(sub_questions, 1)], from [i]. *)
Fixpoint answer_loop (w : World) (i : nat) (sub_questions : list string)
    : M unit :=
  match sub_questions with
  | [] => ret tt
  | q :: rest =>
      emit (PrintQuestion i q) ;;;
      answer <- call (AskChain q) (chain_reply w i q) ;;
      emit (PrintAnswer (enhance_response_authority answer)) ;;;
      answer_loop w (S i) rest
  end.

Definition chat (w : World) (question : string) : M unit :=
  if negb (persist_dir_exists w) then raise no_store_error
  else
    call BuildChain (build_chain_reply w) ;;;
    sub_questions <-
      try_except (split_question_into_parts w question)
        (fun e => emit (PrintSplitFailure e) ;;; ret [question]) ;;
    answer_loop w 1 sub_questions.

(** ** Traces over any kind of event *)

Module Trace.

Section WithEvents.

Context {E : Type}.

(** A computation over events of type [E]: what it emitted, how it ended. *)
Definition T (A : Type) : Type := (list E * outcome A)%type.

Definition ret {A} (a : A) : T A := ([], Returned a).

Definition raise {A} (e : exn) : T A := ([], Raised e).

Definition emit (ev : E) : T unit := ([ev], Returned tt).

Definition call {A} (ev : E) (reply : outcome A) : T A := ([ev], reply).

Definition bind {A B} (m : T A) (k : A -> T B) : T B :=
  match m with
  | (t, Returned a) => let (t', r) := k a in ((t ++ t')%list, r)
  | (t, Raised e) => (t, Raised e)
  end.

Definition try_except {A} (m : T A) (h : exn -> T A) : T A :=
  match m with
  | (t, Returned a) => (t, Returned a)
  | (t, Raised e) => let (t', r) := h e in ((t ++ t')%list, r)
  end.

End WithEvents.

(** A computation seen through a renaming of its events. *)
Definition lift {E F A} (f : E -> F) (m : @T E A) : @T F A :=
  (map f (fst m), snd m).

End Trace.

Declare Scope trace_scope.
Delimit Scope trace_scope with trace.
Notation "x <- m ;; k" := (Trace.bind m (fun x => k))
  (at level 61, m at next level, right associativity) : trace_scope.
Notation "m ;;; k" := (Trace.bind m (fun _ => k))
  (at level 61, right associativity) : trace_scope.

(** ** The command line of [main.py], lines 281-298, and [ingest_docs] *)

Inductive command : Type :=
| Ingest
| Chat (question : string).

Inductive cli_event : Type :=
| LoadDocs
| SplitDocs
| StoreChunks
| PrintIngested (chunks : nat)
| ChatDoes (ev : event).

(** The environment of [ingest_docs] over documents of type [Doc]: what the
    loader, the text splitter and the vector store give back. *)
Record IngestWorld (Doc : Type) : Type := mk_ingest_world {
  load_reply : outcome (list Doc);
  split_reply : list Doc -> outcome (list Doc);
  store_reply : list Doc -> outcome unit
}.

Arguments load_reply {Doc} _.
Arguments split_reply {Doc} _ _.
Arguments store_reply {Doc} _ _.

Definition ingest_docs {Doc} (iw : IngestWorld Doc) : Trace.T unit :=
  (raw_docs <- Trace.call LoadDocs (load_reply iw) ;;
   docs <- Trace.call SplitDocs (split_reply iw raw_docs) ;;
   Trace.call StoreChunks (store_reply iw docs) ;;;
   Trace.emit (PrintIngested (List.length docs)))%trace.

Definition no_key_error : exn :=
  mk_exn "OSError" "Please set the OPENAI_API_KEY environment variable.".

(** Lines 290-298, after [parse_args]: [key_set] is
    [OPENAI_API_KEY in os.environ]. *)
Definition main_block {Doc} (key_set : bool) (iw : IngestWorld Doc)
    (w : World) (cmd : command) : Trace.T unit :=
  if negb key_set then Trace.raise no_key_error
  else
    match cmd with
    | Ingest => ingest_docs iw
    | Chat question => Trace.lift ChatDoes (chat w question)
    end.

(** ** Text over all code points, for the test script *)

Module PyText.

Local Open Scope N_scope.

(** A Python [str] as the list of its code points. *)
Definition text : Type := list N.

Definition of_string (s : string) : text :=
  map N_of_ascii (list_ascii_of_string s).

(** U+2192, the arrow [chat] prints before an answer. *)
Definition arrow : N := 8594.

(** U+1F539, the diamond [chat] prints before a sub-question. *)
Definition diamond : N := 128313.

Definition line_feed : N := 10.

(** [str.isspace] on one code point. *)
Definition is_space (c : N) : bool :=
  ((9 <=? c) && (c <=? 13)) || ((28 <=? c) && (c <=? 32))
  || (c =? 133) || (c =? 160) || (c =? 5760)
  || ((8192 <=? c) && (c <=? 8202))
  || (c =? 8232) || (c =? 8233) || (c =? 8239) || (c =? 8287)
  || (c =? 12288).

Fixpoint lstrip (s : text) : text :=
  match s with
  | [] => []
  | c :: s' => if is_space c then lstrip s' else s
  end.

Fixpoint rstrip (s : text) : text :=
  match s with
  | [] => []
  | c :: s' =>
      match rstrip s' with
      | [] => if is_space c then [] else [c]
      | r => c :: r
      end
  end.

(** [s.strip()] *)
Definition strip (s : text) : text := rstrip (lstrip s).

(** [c in s] for a one-character [c] *)
Definition has (c : N) (s : text) : bool := existsb (N.eqb c) s.

(** [s.startswith(c)] for a one-character [c] *)
Definition starts_with (c : N) (s : text) : bool :=
  match s with
  | [] => false
  | x :: _ => x =? c
  end.

(** [s.startswith(p)] *)
Fixpoint startswith (s p : text) : bool :=
  match p, s with
  | [], _ => true
  | d :: p', c :: s' => (c =? d) && startswith s' p'
  | _ :: _, [] => false
  end.

(** [s.split(c)] for a one-character [c] *)
Fixpoint split_on (c : N) (s : text) : list text :=
  match s with
  | [] => [[]]
  | x :: s' =>
      if x =? c then [] :: split_on c s'
      else match split_on c s' with
           | h :: t => (x :: h) :: t
           | [] => [[x]]
           end
  end.

(** [s.split(c, 1)[1]] for a one-character [c] that occurs in [s] *)
Fixpoint after_first (c : N) (s : text) : text :=
  match s with
  | [] => []
  | x :: s' => if x =? c then s' else after_first c s'
  end.

(** [sep.join(parts)] *)
Fixpoint join (sep : text) (parts : list text) : text :=
  match parts with
  | [] => []
  | [x] => x
  | x :: rest => (x ++ sep ++ join sep rest)%list
  end.

(** [bool(s)] *)
Definition truthy (s : text) : bool :=
  match s with
  | [] => false
  | _ :: _ => true
  end.

End PyText.

(** ** The test script: [query_rag] *)

(** How [subprocess.run(..., check=True)] ends: with the captured output,
    with [CalledProcessError] on a non-zero exit status, or with another
    exception. *)
Inductive run_result : Type :=
| Completed (stdout : PyText.text)
| CalledProcessError (stderr : PyText.text)
| RunRaised (e : exn).

(** Lines 50-57: the loop over the lines, with its two variables; the
    result is [answer_lines]. *)
Fixpoint collect_answer (collecting_answer : bool) (lines : list PyText.text)
    : list PyText.text :=
  match lines with
  | [] => []
  | line :: rest =>
      if PyText.has PyText.arrow line then
        PyText.strip (PyText.after_first PyText.arrow line)
        :: collect_answer true rest
      else if collecting_answer && PyText.truthy (PyText.strip line)
              && negb (PyText.starts_with PyText.diamond line) then
        PyText.strip line :: collect_answer collecting_answer rest
      else if PyText.starts_with PyText.diamond line && collecting_answer then
        []
      else collect_answer collecting_answer rest
  end.

(** Lines 37-63, given how the subprocess ended. *)
Definition query_rag_of (run : run_result) : outcome PyText.text :=
  match run with
  | Completed stdout =>
      Returned
        (PyText.strip
           (PyText.join (PyText.of_string " ")
              (collect_answer false
                 (PyText.split_on PyText.line_feed (PyText.strip stdout)))))
  | CalledProcessError stderr =>
      Returned (PyText.of_string "Error: " ++ stderr)%list
  | RunRaised e => Raised e
  end.

(** ** The test script: [query_and_validate], the tests, [run_all_tests] *)

Inductive test_event : Type :=
| RunChat (question : string)
| PrintQueryError (response_text : PyText.text)
| BuildEvaluator
| AskEvaluator (expected : string) (actual : PyText.text)
| PrintQuestionLine (question : string)
| PrintExpected (expected : string)
| PrintActual (actual : PyText.text)
| PrintEvaluation (cleaned : string)
| PrintPass
| PrintFail
| PrintUnclear (cleaned : string)
| PrintEvaluationError (e : exn)
| PrintSuiteStart (total : nat)
| PrintRule
| PrintRunning (i total : nat) (name : string)
| PrintTestPassed (name : string)
| PrintTestFailed (name : string) (e : exn)
| PrintResultsTitle
| PrintTotal (total : nat)
| PrintPassedCount (passed : nat)
| PrintFailedCount (failed : nat)
| PrintSuccessRate (passed total : nat)
| PrintAllPassed
| PrintSomeFailed (failed : nat).

(** The environment of the test script: how the [chat] subprocess ends for
    a question, whether the key is set, whether the evaluator model can be
    built, and the [content] it answers for an expected and an actual
    response (the two holes of [EVAL_PROMPT]). *)
Record TestWorld : Type := mk_test_world {
  chat_run : string -> run_result;
  key_is_set : bool;
  evaluator_build : outcome unit;
  evaluator_reply : string -> PyText.text -> outcome string
}.

Definition query_rag (tw : TestWorld) (question : string)
    : Trace.T PyText.text :=
  Trace.call (RunChat question) (query_rag_of (chat_run tw question)).

Definition query_and_validate (tw : TestWorld)
    (question expected_response : string) : Trace.T bool :=
  (response_text <- query_rag tw question ;;
   if PyText.startswith response_text (PyText.of_string "Error:") then
     Trace.emit (PrintQueryError response_text) ;;; Trace.ret false
   else if negb (key_is_set tw) then Trace.raise no_key_error
   else
     Trace.call BuildEvaluator (evaluator_build tw) ;;;
     Trace.try_except
       (evaluation_results_str <-
          Trace.call (AskEvaluator expected_response response_text)
            (evaluator_reply tw expected_response response_text) ;;
        let cleaned := lower (strip evaluation_results_str) in
        Trace.emit (PrintQuestionLine question) ;;;
        Trace.emit (PrintExpected expected_response) ;;;
        Trace.emit (PrintActual response_text) ;;;
        Trace.emit (PrintEvaluation cleaned) ;;;
        if contains cleaned "true" then
          Trace.emit PrintPass ;;; Trace.ret true
        else if contains cleaned "false" then
          Trace.emit PrintFail ;;; Trace.ret false
        else
          Trace.emit (PrintUnclear cleaned) ;;; Trace.ret false)
       (fun e => Trace.emit (PrintEvaluationError e) ;;; Trace.ret false))
  %trace.

Definition assertion_error : exn := mk_exn "AssertionError" EmptyString.

(** A test function: [assert query_and_validate(question, expected)]. *)
Definition test_case (tw : TestWorld) (question expected_response : string)
    : Trace.T unit :=
  (ok <- query_and_validate tw question expected_response ;;
   if ok then Trace.ret tt else Trace.raise assertion_error)%trace.

Definition zero_division_error : exn :=
  mk_exn "ZeroDivisionError" "division by zero".

(** Lines 1928-1935: the loop over the tests from number [i], each test a
    name and what running it does; the result is the two counters. *)
Fixpoint test_loop (total i : nat)
    (tests : list (string * Trace.T (E := test_event) unit))
    (passed_tests failed_tests : nat) : Trace.T (nat * nat) :=
  match tests with
  | [] => Trace.ret (passed_tests, failed_tests)
  | (name, test_func) :: rest =>
      (Trace.emit (PrintRunning i total name) ;;;
       ok <- Trace.try_except
               (test_func ;;; Trace.emit (PrintTestPassed name) ;;;
                Trace.ret true)
               (fun e => Trace.emit (PrintTestFailed name e) ;;;
                         Trace.ret false) ;;
       if ok : bool
       then test_loop total (S i) rest (S passed_tests) failed_tests
       else test_loop total (S i) rest passed_tests (S failed_tests))%trace
  end.

(** Lines 1919-1950, over the list of tests. *)
Definition run_all_tests
    (tests : list (string * Trace.T (E := test_event) unit))
    : Trace.T bool :=
  let total_tests := List.length tests in
  (Trace.emit (PrintSuiteStart total_tests) ;;;
   Trace.emit PrintRule ;;;
   counters <- test_loop total_tests 1 tests 0 0 ;;
   let (passed_tests, failed_tests) := counters : nat * nat in
   Trace.emit PrintRule ;;;
   Trace.emit PrintResultsTitle ;;;
   Trace.emit (PrintTotal total_tests) ;;;
   Trace.emit (PrintPassedCount passed_tests) ;;;
   Trace.emit (PrintFailedCount failed_tests) ;;;
   (if (total_tests =? 0)%nat then Trace.raise zero_division_error
    else Trace.emit (PrintSuccessRate passed_tests total_tests)) ;;;
   (if (failed_tests =? 0)%nat then Trace.emit PrintAllPassed
    else Trace.emit (PrintSomeFailed failed_tests)) ;;;
   Trace.ret (failed_tests =? 0)%nat)%trace.

(** ** What [chat] writes to its standard output *)

(** [str(n)] *)
Definition decimal (n : nat) : string :=
  NilEmpty.string_of_uint (Nat.to_uint n).

(** The text one event puts on the standard output: the three [print]
    calls of [chat] (lines 270, 274 and 277), each ending its line; the
    calls to the outside print nothing. *)
Definition printed (ev : event) : PyText.text :=
  match ev with
  | PrintSplitFailure e =>
      PyText.of_string
        ("[!] Failed to split question. Falling back to original: "
         ++ exn_text e)
      ++ [PyText.line_feed]
  | PrintQuestion i q =>
      [PyText.line_feed; PyText.diamond]
      ++ PyText.of_string (" Q" ++ decimal i ++ ": " ++ q)
      ++ [PyText.line_feed]
  | PrintAnswer answer =>
      [PyText.arrow] ++ PyText.of_string (" " ++ answer)
      ++ [PyText.line_feed]
  | BuildChain | AskDecomposer _ | AskChain _ => []
  end%list.

Definition stdout_of (trace : list event) : PyText.text :=
  flat_map printed trace.

(** The text of a question line after its diamond. *)
Definition question_text (i : nat) (q : string) : PyText.text :=
  PyText.of_string (" Q" ++ decimal i ++ ": " ++ q).

(** The diamond line and the arrow line of one sub-question, without the
    line feeds around them. *)
Definition printed_body (i : nat) (q answer : string) : PyText.text :=
  (PyText.diamond
   :: (question_text i q ++ [PyText.line_feed; PyText.arrow; 32%N])
   ++ PyText.of_string answer)%list.

(** The carriage return, ['\r']. *)
Definition cr : string := String (ascii_of_nat 13) EmptyString.

(** What [subprocess.run(..., text=True)] hands over for what the child
    wrote: a carriage return, alone or before a line feed, has become one
    line feed. *)
Fixpoint universal_newlines (s : PyText.text) : PyText.text :=
  match s with
  | [] => []
  | c :: s' =>
      if (c =? 13)%N then
        PyText.line_feed
        :: match s' with
           | d :: s'' =>
               if (d =? 10)%N then universal_newlines s''
               else universal_newlines s'
           | [] => []
           end
      else c :: universal_newlines s'
  end.

(** The output of [chat] as [query_rag] receives it. *)
Definition captured_stdout (trace : list event) : PyText.text :=
  universal_newlines (stdout_of trace).

(** ** Notions used in the statements *)

(** [str_forall p s]: every character of [s] satisfies [p]. *)
Fixpoint str_forall (p : ascii -> bool) (s : string) : bool :=
  match s with
  | EmptyString => true
  | String c s' => p c && str_forall p s'
  end.

(** [lacks c s]: the character [c] does not occur in [s]. *)
Definition lacks (c : ascii) (s : string) : bool :=
  str_forall (fun x => negb (Ascii.eqb x c)) s.

(** Every text the rewriter can put into an answer. *)
Definition inserted_texts : list string :=
  [ "You need to"; "steps"; "can't be used in"; "can only be used in"; nl;
    fallback_answer; prefix_action; prefix_steps; prefix_equipment ].

Definition opener_prefixes : list string :=
  [ prefix_action; prefix_steps; prefix_equipment ].

(** The value of lines 142-172 once the model call has returned [result]. *)
Definition chosen_parts (result : list string) (question : string)
    : list string :=
  if negb (0 <? List.length result)%nat || (List.length result =? 1)%nat then
    if (1 <? List.length (split " and " question))%nat
    then literal_split (split " and " question)
    else result
  else result.

(** The claim's reading of lines 146-151: the first of tiling, repair and
    excavation that the first fragment names, in any letter case. *)
Definition named_domain (first kw : string) : Prop :=
  (kw = "tiling" /\ contains (lower first) "tiling" = true)
  \/ (kw = "repair" /\ contains (lower first) "tiling" = false
      /\ contains (lower first) "repair" = true)
  \/ (kw = "excavation" /\ contains (lower first) "tiling" = false
      /\ contains (lower first) "repair" = false
      /\ contains (lower first) "excavation" = true).

Definition timeout_error : exn := mk_exn "APITimeoutError" "Request timed out.".

(** A populated store, a chain that builds, a decomposer with a fixed reply
    and a chain that answers every question. *)
Definition world_with (reply : outcome (list string)) : World :=
  mk_world true (Returned tt) (fun _ => reply)
    (fun _ q => Returned ("Click Save to " ++ q)).

(** The same with no store on disk. *)
Definition world_without_store : World :=
  mk_world false (Returned tt) (fun _ => Returned [])
    (fun _ q => Returned q).

(** The first and the last character of [s] are not whitespace. *)
Definition starts_solid (s : string) : bool :=
  match s with
  | EmptyString => false
  | String c _ => negb (is_space c)
  end.

Fixpoint ends_solid (s : string) : bool :=
  match s with
  | EmptyString => false
  | String c EmptyString => negb (is_space c)
  | String _ s' => ends_solid s'
  end.

Definition solid (s : string) : Prop :=
  starts_solid s = true /\ ends_solid s = true.

(** Every text the rewriter looks for in order to remove or replace it
    (lines 181-208 and 219-223). *)
Definition rewritten_texts : list string :=
  formal_phrases
  ++ [ "**"; "- "; "* ";
       "The system requires"; "The documentation specifies";
       "official system procedures"; "documented procedures";
       "cannot be added"; "can only be added" ]
  ++ verbose_phrases.

(** A one-line answer with nothing for the rewriter to do: no text it
    removes or replaces, no surrounding whitespace, no skip phrase. *)
Definition plain (raw : string) : bool :=
  negb (is_no_answer raw)
  && negb (contains_any raw rewritten_texts)
  && negb (contains raw nl)
  && starts_solid raw && ends_solid raw
  && negb (contains_any (lower raw) skip_phrases).

(** What the loop of lines 273-277 prints and asks from index [i] on when
    the [i]-th query is answered by [answer_of i q]. *)
Fixpoint answered (answer_of : nat -> string -> string) (i : nat)
    (sub_questions : list string) : list event :=
  match sub_questions with
  | [] => []
  | q :: rest =>
      [ PrintQuestion i q; AskChain q;
        PrintAnswer (enhance_response_authority (answer_of i q)) ]
      ++ answered answer_of (S i) rest
  end.

(** As [world_with], but the chain raises on the question [bad]. *)
Definition world_failing_on (bad : string) (reply : outcome (list string))
    : World :=
  mk_world true (Returned tt) (fun _ => reply)
    (fun _ q => if String.eqb q bad then Raised timeout_error
                else Returned ("Click Save to " ++ q)).

(** What [chat] prints for two sub-questions: after a line feed, the
    diamond line of the first, its arrow line, an empty line, and the same
    for the second. *)
Definition two_answers_stdout : PyText.text :=
  ([PyText.line_feed; PyText.diamond] ++ PyText.of_string " Q1: who?"
   ++ [PyText.line_feed; PyText.arrow] ++ PyText.of_string " Admin only."
   ++ [PyText.line_feed; PyText.line_feed; PyText.diamond]
   ++ PyText.of_string " Q2: when?"
   ++ [PyText.line_feed; PyText.arrow] ++ PyText.of_string " After approval."
   ++ [PyText.line_feed])%list.

(** A test returns when it does not raise. *)
Definition returns (test_func : Trace.T (E := test_event) unit) : bool :=
  match snd test_func with
  | Returned _ => true
  | Raised _ => false
  end.

Definition count_passed
    (tests : list (string * Trace.T (E := test_event) unit)) : nat :=
  List.length (filter (fun test => returns (snd test)) tests).

(** The closing lines of [run_all_tests] for [total] tests of which [passed]
    returned. *)
Definition summary (total passed : nat) : list test_event :=
  [ PrintRule; PrintResultsTitle; PrintTotal total; PrintPassedCount passed;
    PrintFailedCount (total - passed); PrintSuccessRate passed total;
    if (total - passed =? 0)%nat then PrintAllPassed
    else PrintSomeFailed (total - passed) ].

(** A test environment with the key set and an evaluator that builds. *)
Definition test_world_with (run : run_result) (reply : outcome string)
    : TestWorld :=
  mk_test_world (fun _ => run) true (Returned tt) (fun _ _ => reply).

(** A test environment whose evaluator agrees when the expected response
    is [Admin] and disagrees otherwise. *)
Definition grading_world : TestWorld :=
  mk_test_world (fun _ => Completed two_answers_stdout) true (Returned tt)
    (fun expected _ =>
       if String.eqb expected "Admin" then Returned "true"
       else Returned "false").

(** [query_and_validate] returned True. *)
Definition verdict (tw : TestWorld) (question expected_response : string)
    : bool :=
  match snd (query_and_validate tw question expected_response) with
  | Returned ok => ok
  | Raised _ => false
  end.

(** The tests of the script as data: name, question, expected response. *)
Definition suite_of (tw : TestWorld)
    (specs : list (string * (string * string)))
    : list (string * Trace.T (E := test_event) unit) :=
  map (fun spec =>
         (fst spec, test_case tw (fst (snd spec)) (snd (snd spec))))
    specs.

(** *** Texts in which what is to be removed stands whole *)

(** [Tok special toks s]: reading [s] from left to right, it is made of
    whole texts of [toks] and of single characters that are not
    [special]. *)
Inductive Tok (special : ascii -> bool) (toks : list string)
    : string -> Prop :=
| Tok_nil : Tok special toks EmptyString
| Tok_plain (c : ascii) (s : string) :
    special c = false -> Tok special toks s -> Tok special toks (String c s)
| Tok_tok (t s : string) :
    In t toks -> Tok special toks s -> Tok special toks (t ++ s).

(** The same as a test: at each place, a text of [toks] that begins there is
    passed over, or else one character that is not [special]. *)
Fixpoint made_of (special : ascii -> bool) (toks : list string)
    (fuel : nat) (s : string) : bool :=
  match s with
  | EmptyString => true
  | String c s' =>
      match fuel with
      | 0 => false
      | S n =>
          match find (startswith s) toks with
          | Some t => made_of special toks n (drop (String.length t) s)
          | None => negb (special c) && made_of special toks n s'
          end
      end
  end.

(** The first characters of the texts of a list. *)
Definition begins_one_of (ps : list string) (c : ascii) : bool :=
  existsb (fun p => match p with
                    | EmptyString => false
                    | String d _ => Ascii.eqb c d
                    end) ps.

(** The three markers that lines 199-201 remove, in that order. *)
Definition markers : list string := [ "**"; "- "; "* " ].

(** Every star and every hyphen of [raw] is part of a marker. *)
Definition markers_whole (raw : string) : bool :=
  made_of (begins_one_of markers) markers (String.length raw) raw.

(** Every capital that begins a catalog phrase (A, D, S, T) begins, in
    [raw], an occurrence of a catalog phrase. *)
Definition lead_ins_whole (raw : string) : bool :=
  made_of (begins_one_of formal_phrases) formal_phrases
    (String.length raw) raw.

(** The removals of lines 196-201, in their order. *)
Definition removal_passes : list string := formal_phrases ++ markers.

(** [a] and [b] differ at a place they both have. *)
Fixpoint mismatch (a b : string) : bool :=
  match a, b with
  | String x a', String y b' => negb (Ascii.eqb x y) || mismatch a' b'
  | _, _ => false
  end.

(** [c] does not occur in [t] after its first character. *)
Definition inner_avoids (c : ascii) (t : string) : bool :=
  match t with
  | EmptyString => true
  | String _ t' => str_forall (fun x => negb (Ascii.eqb x c)) t'
  end.

Definition starts_special (special : ascii -> bool) (t : string) : bool :=
  match t with
  | EmptyString => false
  | String x _ => special x
  end.

(** The removal of [p] reads a text made of [toks] as it is made: [p]
    begins with a special character or has none; every text of [toks]
    begins with a special character, and is [p] or differs from it and does
    not hold the first character of [p] further on. *)
Definition pass_ok (special : ascii -> bool) (p : string)
    (toks : list string) : bool :=
  match p with
  | EmptyString => false
  | String c _ =>
      (special c || str_forall (fun x => negb (special x)) p)
      && forallb
           (fun t =>
              starts_special special t
              && (String.eqb t p || (mismatch t p && inner_avoids c t)))
           toks
  end.

Definition without (p : string) (toks : list string) : list string :=
  filter (fun t => negb (String.eqb t p)) toks.

Fixpoint passes_ok (special : ascii -> bool) (ps toks : list string)
    : bool :=
  match ps with
  | [] => true
  | p :: ps' => pass_ok special p toks && passes_ok special ps' (without p toks)
  end.

Fixpoint after_passes (ps toks : list string) : list string :=
  match ps with
  | [] => toks
  | p :: ps' => after_passes ps' (without p toks)
  end.

(** The texts lines 203-238 can put into the text. *)
Definition body_texts : list string :=
  [ "You need to"; "steps"; "can't be used in"; "can only be used in"; nl ].

(** A text that ends [a] begins [t]. *)
Fixpoint overlap (a t : string) : bool :=
  match a with
  | EmptyString => false
  | String _ a' => startswith t a || overlap a' t
  end.

(** ** Facts about the string primitives *)

(** Membership in a list that is written out. *)
Ltac in_list := simpl; tauto.

Section StringFacts.

Lemma startswith_nil (s : string) : startswith s EmptyString = true.
Proof. destruct s; reflexivity. Qed.

Lemma startswith_cons (c d : ascii) (s p : string) :
  startswith (String c s) (String d p) = Ascii.eqb c d && startswith s p.
Proof.
  unfold startswith; simpl.
  destruct (ascii_dec d c) as [->|Hne].
  - now rewrite Ascii.eqb_refl.
  - destruct (Ascii.eqb_spec c d); [congruence | reflexivity].
Qed.

Lemma startswith_app (p s : string) : startswith (p ++ s) p = true.
Proof.
  induction p as [|c p IH]; cbn [append].
  - apply startswith_nil.
  - now rewrite startswith_cons, Ascii.eqb_refl.
Qed.

Lemma startswith_spec (s p : string) :
  startswith s p = true <-> exists t, s = p ++ t.
Proof.
  split.
  - revert s; induction p as [|d p IH]; intros s H.
    + now exists s.
    + destruct s as [|c s]; [discriminate|].
      rewrite startswith_cons in H. apply andb_true_iff in H as [Hc Hp].
      apply Ascii.eqb_eq in Hc as ->.
      destruct (IH _ Hp) as [t ->]. now exists t.
  - intros [t ->]. apply startswith_app.
Qed.

(** A longer prefix implies each of its own prefixes. *)
Lemma startswith_trans (s p q : string) :
  startswith s p = true -> startswith p q = true -> startswith s q = true.
Proof.
  intros Hp Hq.
  apply startswith_spec in Hp as [t ->]. apply startswith_spec in Hq as [u ->].
  apply startswith_spec. exists (u ++ t).
  clear. induction q as [|c q IH]; simpl; [reflexivity | now rewrite IH].
Qed.

Lemma app_assoc_str (a b c : string) : (a ++ b) ++ c = a ++ (b ++ c).
Proof. induction a as [|x a IH]; simpl; [reflexivity | now rewrite IH]. Qed.

Lemma app_nil_r_str (a : string) : a ++ EmptyString = a.
Proof. induction a as [|x a IH]; simpl; [reflexivity | now rewrite IH]. Qed.

Lemma contains_cons (c : ascii) (s p : string) :
  contains (String c s) p = startswith (String c s) p || contains s p.
Proof. reflexivity. Qed.

Lemma contains_spec (s p : string) :
  contains s p = true <-> exists a b, s = a ++ p ++ b.
Proof.
  split.
  - induction s as [|c s IH]; intros H.
    + cbn [contains] in H. rewrite orb_false_r in H.
      apply startswith_spec in H as [t Ht]. now exists EmptyString, t.
    + rewrite contains_cons in H. apply orb_true_iff in H as [H|H].
      * apply startswith_spec in H as [t Ht]. now exists EmptyString, t.
      * destruct (IH H) as (a & b & ->). now exists (String c a), b.
  - intros (a & b & ->). induction a as [|c a IH].
    + cbn [append]. destruct (p ++ b) eqn:E.
      * destruct p; [reflexivity | discriminate].
      * rewrite contains_cons, <- E, startswith_app. reflexivity.
    + change (String c a ++ p ++ b) with (String c (a ++ p ++ b)).
      rewrite contains_cons, IH. apply orb_true_r.
Qed.

Lemma lower_app (a b : string) : lower (a ++ b) = lower a ++ lower b.
Proof. induction a as [|c a IH]; simpl; [reflexivity | now rewrite IH]. Qed.

Lemma truthy_false (s : string) : truthy s = false <-> s = EmptyString.
Proof. destruct s; simpl; split; congruence. Qed.

Lemma truthy_true (s : string) : truthy s = true <-> s <> EmptyString.
Proof. destruct s; simpl; split; congruence. Qed.

Lemma truthy_app_r (a b : string) : truthy b = true -> truthy (a ++ b) = true.
Proof. destruct a; simpl; auto. Qed.

(** *** Which characters a result can hold *)

Variable p : ascii -> bool.

Lemma str_forall_app (a b : string) :
  str_forall p (a ++ b) = str_forall p a && str_forall p b.
Proof.
  induction a as [|c a IH]; simpl; [reflexivity|].
  now rewrite IH, andb_assoc.
Qed.

Lemma replace_scan_forall (old new : string) :
  str_forall p new = true ->
  forall s count skip,
    str_forall p s = true ->
    str_forall p (replace_scan old new count skip s) = true.
Proof.
  intros Hnew s; induction s as [|c s IH]; intros count skip Hs;
    [reflexivity|].
  simpl in Hs. apply andb_true_iff in Hs as [Hc Hs].
  cbn [replace_scan]. destruct skip as [|k]; [|now apply IH].
  destruct (negb (exhausted count) && startswith (String c s) old).
  - rewrite str_forall_app, Hnew. now apply IH.
  - cbn [str_forall]. rewrite Hc. now apply IH.
Qed.

Lemma replace_empty_forall (new : string) :
  str_forall p new = true ->
  forall s count,
    str_forall p s = true -> str_forall p (replace_empty new count s) = true.
Proof.
  intros Hnew s; induction s as [|c s IH]; intros count Hs.
  - cbn [replace_empty]. destruct (exhausted count); [reflexivity|].
    now rewrite str_forall_app, Hnew.
  - cbn [replace_empty]. destruct (exhausted count); [assumption|].
    simpl in Hs. apply andb_true_iff in Hs as [Hc Hs].
    rewrite str_forall_app, Hnew. cbn [str_forall]. rewrite Hc. now apply IH.
Qed.

Lemma replace_count_forall (old new : string) (count : option nat)
    (s : string) :
  str_forall p new = true -> str_forall p s = true ->
  str_forall p (replace_count old new count s) = true.
Proof.
  intros Hnew Hs. unfold replace_count. destruct old.
  - now apply replace_empty_forall.
  - now apply replace_scan_forall.
Qed.

Lemma replace_forall (old new s : string) :
  str_forall p new = true -> str_forall p s = true ->
  str_forall p (replace old new s) = true.
Proof. apply replace_count_forall. Qed.

Lemma lstrip_forall (s : string) :
  str_forall p s = true -> str_forall p (lstrip s) = true.
Proof.
  induction s as [|c s IH]; intros H; [reflexivity|].
  cbn [lstrip]. destruct (is_space c); [|assumption].
  simpl in H. apply andb_true_iff in H as [_ H]. now apply IH.
Qed.

Lemma rstrip_forall (s : string) :
  str_forall p s = true -> str_forall p (rstrip s) = true.
Proof.
  induction s as [|c s IH]; intros H; [reflexivity|].
  simpl in H. apply andb_true_iff in H as [Hc H]. specialize (IH H).
  cbn [rstrip]. destruct (rstrip s) as [|d r].
  - destruct (is_space c); [reflexivity|]. simpl. now rewrite Hc.
  - cbn [str_forall] in *. now rewrite Hc.
Qed.

Lemma strip_forall (s : string) :
  str_forall p s = true -> str_forall p (strip s) = true.
Proof. intros H. apply rstrip_forall, lstrip_forall, H. Qed.

Lemma split_scan_forall (sep : string) (s : string) :
  forall skip,
    str_forall p s = true ->
    forallb (str_forall p) (split_scan sep skip s) = true.
Proof.
  induction s as [|c s IH]; intros skip H; [reflexivity|].
  simpl in H. apply andb_true_iff in H as [Hc H].
  cbn [split_scan]. destruct skip as [|k]; [|now apply IH].
  destruct (startswith (String c s) sep).
  - cbn [forallb str_forall]. now apply IH.
  - specialize (IH 0 H). destruct (split_scan sep 0 s) as [|h t].
    + simpl. now rewrite Hc.
    + cbn [forallb str_forall] in *. now rewrite Hc.
Qed.

Lemma join_forall (sep : string) (parts : list string) :
  str_forall p sep = true ->
  forallb (str_forall p) parts = true ->
  str_forall p (join sep parts) = true.
Proof.
  intros Hsep. unfold join.
  induction parts as [|x [|y l] IH]; intros H; [reflexivity| |].
  - simpl in *. now rewrite andb_true_r in H.
  - change (str_forall p x && forallb (str_forall p) (y :: l) = true) in H.
    apply andb_true_iff in H as [Hx H].
    change (String.concat sep (x :: y :: l))
      with (x ++ sep ++ String.concat sep (y :: l)).
    rewrite !str_forall_app, Hx, Hsep. now apply IH.
Qed.

Lemma forallb_map_filter (f : string -> string) (k : string -> bool)
    (l : list string) :
  (forall s, str_forall p s = true -> str_forall p (f s) = true) ->
  forallb (str_forall p) l = true ->
  forallb (str_forall p) (filter k (map f l)) = true.
Proof.
  intros Hf. induction l as [|x l IH]; intros H; [reflexivity|].
  cbn [forallb] in H. apply andb_true_iff in H as [Hx H].
  cbn [map filter]. destruct (k (f x)); [|now apply IH].
  cbn [forallb]. now rewrite (Hf _ Hx), IH.
Qed.

End StringFacts.

(** ** The response rewriter: what holds of every answer *)

Lemma str_length_app (a b : string) :
  String.length (a ++ b) = String.length a + String.length b.
Proof. induction a as [|c a IH]; simpl; [reflexivity | now rewrite IH]. Qed.

Lemma app_not_self (a b : string) : truthy a = true -> a ++ b <> b.
Proof.
  intros Ha E. apply (f_equal String.length) in E.
  rewrite str_length_app in E. destruct a; [discriminate | simpl in E; lia].
Qed.

Lemma lacks_contains (c : ascii) (q s : string) :
  lacks c s = true -> contains s (String c q) = false.
Proof.
  unfold lacks. induction s as [|d s IH]; intros H; [reflexivity|].
  cbn [str_forall] in H. apply andb_true_iff in H as [Hd H].
  rewrite contains_cons, startswith_cons, (IH H).
  apply negb_true_iff in Hd. now rewrite Hd.
Qed.

Lemma is_no_answer_any (response : string) :
  is_no_answer response = contains_any (lower response) no_answer_phrases.
Proof.
  unfold is_no_answer, contains_any, no_answer_phrases. cbn [existsb].
  now rewrite orb_false_r, orb_assoc.
Qed.

Lemma is_no_answer_truthy (response : string) :
  is_no_answer response = true -> truthy response = true.
Proof. destruct response; [discriminate | reflexivity]. Qed.

Lemma add_opener_cases (response : string) :
  add_opener response = response
  \/ startswith_any (lower response) starters = false
     /\ exists P, In P opener_prefixes /\ add_opener response = P ++ response.
Proof.
  unfold add_opener, opener_prefixes.
  destruct (startswith_any (lower response) starters); [now left|].
  cbn [negb].
  destruct (contains_any (take 30 (lower response)) action_words);
    [right; split; [reflexivity | eexists; split; [|reflexivity]; in_list]|].
  destruct (startswith (lower response) "1.");
    [right; split; [reflexivity | eexists; split; [|reflexivity]; in_list]|].
  destruct (contains_any (take 20 (lower response)) equipment_words);
    [right; split; [reflexivity | eexists; split; [|reflexivity]; in_list]|].
  now left.
Qed.

Lemma add_opener_truthy (response : string) :
  truthy response = true -> truthy (add_opener response) = true.
Proof.
  intros H. destruct (add_opener_cases response) as [-> | (_ & P & _ & ->)];
    [assumption | now apply truthy_app_r].
Qed.

Lemma enhance_truthy (response : string) :
  truthy (enhance_response_authority response) = true.
Proof.
  unfold enhance_response_authority.
  destruct (is_no_answer response) eqn:E; [now apply is_no_answer_truthy|].
  destruct (truthy (rewrite_body response)) eqn:T; cbn [negb];
    [now apply add_opener_truthy | reflexivity].
Qed.

Section Characters.

Variable p : ascii -> bool.
Hypothesis inserted_ok : forallb (str_forall p) inserted_texts = true.

Lemma inserted_in (t : string) :
  In t inserted_texts -> str_forall p t = true.
Proof. intros H. exact (proj1 (forallb_forall _ _) inserted_ok t H). Qed.

Lemma remove_all_forall (ps : list string) (response : string) :
  str_forall p response = true -> str_forall p (remove_all ps response) = true.
Proof.
  unfold remove_all. revert response.
  induction ps as [|ph ps IH]; intros response H; [assumption|].
  cbn [fold_left]. apply IH. now apply replace_forall.
Qed.

Lemma strip_markdown_forall (response : string) :
  str_forall p response = true -> str_forall p (strip_markdown response) = true.
Proof.
  intros H. unfold strip_markdown. repeat (apply replace_forall; [reflexivity|]).
  assumption.
Qed.

Lemma soften_forall (response : string) :
  str_forall p response = true -> str_forall p (soften response) = true.
Proof.
  intros H. unfold soften.
  repeat (apply replace_forall;
          [first [reflexivity | apply inserted_in; in_list]|]).
  assumption.
Qed.

Lemma clean_lines_forall (response : string) :
  str_forall p response = true -> str_forall p (clean_lines response) = true.
Proof.
  intros H. unfold clean_lines.
  apply join_forall; [apply inserted_in; in_list|].
  apply forallb_map_filter; [apply strip_forall|].
  now apply split_scan_forall.
Qed.

Lemma rewrite_body_forall (response : string) :
  str_forall p response = true -> str_forall p (rewrite_body response) = true.
Proof.
  intros H. unfold rewrite_body.
  apply clean_lines_forall, remove_all_forall, strip_forall, soften_forall,
    strip_markdown_forall, remove_all_forall, H.
Qed.

Lemma add_opener_forall (response : string) :
  str_forall p response = true -> str_forall p (add_opener response) = true.
Proof.
  intros H.
  destruct (add_opener_cases response) as [-> | (_ & P & HP & ->)];
    [assumption|].
  rewrite str_forall_app, H, andb_true_r.
  apply inserted_in. unfold opener_prefixes in HP. simpl in *. tauto.
Qed.

(** The answer holds only characters of the raw text and of the inserted
    texts. *)
Lemma enhance_forall (response : string) :
  str_forall p response = true ->
  str_forall p (enhance_response_authority response) = true.
Proof.
  intros H. unfold enhance_response_authority.
  destruct (is_no_answer response); [assumption|].
  destruct (truthy (rewrite_body response)); cbn [negb].
  - now apply add_opener_forall, rewrite_body_forall.
  - apply inserted_in. in_list.
Qed.

End Characters.

Lemma lacks_inserted_star : forallb (lacks "*") inserted_texts = true.
Proof. reflexivity. Qed.

Lemma lacks_inserted_dash : forallb (lacks "-") inserted_texts = true.
Proof. reflexivity. Qed.


(** Past the early return a marker can survive as well: each removal is one
    pass, and removing the hyphen bullet here joins two stars. *)
Example removal_joins_stars : enhance_response_authority "*- *" = "**".
Proof. reflexivity. Qed.

Example removal_joins_lead_in :
  enhance_response_authority "According to the docu**mentation, all is set"
  = "According to the documentation, all is set".
Proof. reflexivity. Qed.

(** C4: the rewriter returns on every raw text, the empty one included, and
    what it returns is not empty; on the empty text it is the fixed
    sentence. *)
Theorem enhance_total_nonempty (raw : string) :
  (exists answer,
      enhance_response_authority raw = answer /\ answer <> EmptyString)
  /\ enhance_response_authority EmptyString
     = "I can help you with that based on the system documentation.".
Proof.
  split; [|reflexivity].
  exists (enhance_response_authority raw). split; [reflexivity|].
  apply truthy_true, enhance_truthy.
Qed.

(** C5: a raw text that holds one of the three no-answer phrases, in any
    letter case, is returned as it is. *)
Theorem no_answer_verbatim (raw before found after phrase : string) :
  In phrase no_answer_phrases ->
  raw = before ++ found ++ after ->
  lower found = phrase ->
  enhance_response_authority raw = raw.
Proof.
  intros Hin -> Hlow. unfold enhance_response_authority.
  assert (is_no_answer (before ++ found ++ after) = true) as ->;
    [|reflexivity].
  rewrite is_no_answer_any. unfold contains_any.
  apply existsb_exists. exists phrase. split; [assumption|].
  apply contains_spec. exists (lower before), (lower after).
  now rewrite !lower_app, Hlow.
Qed.

Lemma no_answer_verbatim_witness :
  enhance_response_authority "**Sorry**, that is Not Available here."
  = "**Sorry**, that is Not Available here.".
Proof.
  apply (no_answer_verbatim _ "**Sorry**, that is " "Not Available" " here."
           "not available").
  - in_list.
  - reflexivity.
  - reflexivity.
Defined.

(** C9: the rewriter is not idempotent. *)
Theorem enhance_not_idempotent :
  exists raw,
    enhance_response_authority (enhance_response_authority raw)
    <> enhance_response_authority raw.
Proof. exists "*- *". vm_compute. discriminate. Qed.

(** *** Openers *)

Lemma startswith_lower_prefix (P s st : string) :
  startswith (lower P) st = true -> startswith (lower (P ++ s)) st = true.
Proof.
  intros H. rewrite lower_app.
  apply (startswith_trans _ (lower P)); [apply startswith_app | exact H].
Qed.

Lemma prefix_has_starter (P : string) :
  In P opener_prefixes ->
  exists st, In st ["to"; "steps"; "here"] /\ startswith (lower P) st = true.
Proof.
  intros [<- | [<- | [<- | []]]].
  - exists "to". split; [in_list | reflexivity].
  - exists "steps". split; [in_list | reflexivity].
  - exists "here". split; [in_list | reflexivity].
Qed.

Lemma starts_with_prefix_has_starter (P response : string) :
  In P opener_prefixes ->
  startswith (lower response) (lower P) = true ->
  startswith_any (lower response) starters = true.
Proof.
  intros HP H. destruct (prefix_has_starter P HP) as (st & Hst & Hpre).
  apply existsb_exists. exists st. split.
  - unfold starters. simpl in Hst. simpl. tauto.
  - now apply (startswith_trans _ (lower P)).
Qed.

(** C10, as amended: each prefix begins with a recognised opener, so the
    rule leaves alone a text that begins with a prefix, and when the second
    pass of the rewriter puts a prefix in front of its text, that text does
    not begin, in any letter case, with a prefix. *)
Theorem opener_never_put_before_opener :
  (forall P, In P opener_prefixes ->
     startswith_any (lower P) ["to"; "steps"; "here"] = true)
  /\ (forall P rest, In P opener_prefixes ->
        add_opener (P ++ rest) = P ++ rest)
  /\ (forall raw P,
        let once := enhance_response_authority raw in
        In P opener_prefixes ->
        is_no_answer once = false ->
        enhance_response_authority once = P ++ rewrite_body once ->
        forall P', In P' opener_prefixes ->
          startswith (lower (rewrite_body once)) (lower P') = false).
Proof.
  split; [|split].
  - intros P HP. destruct (prefix_has_starter P HP) as (st & Hst & Hpre).
    apply existsb_exists. now exists st.
  - intros P rest HP. unfold add_opener.
    rewrite (starts_with_prefix_has_starter P); [reflexivity | assumption|].
    rewrite lower_app. apply startswith_app.
  - intros raw P once HP Hno Hout P' HP'.
    unfold enhance_response_authority in Hout. rewrite Hno in Hout.
    destruct (truthy (rewrite_body once)) eqn:T; cbn [negb] in Hout.
    + destruct (add_opener_cases (rewrite_body once))
        as [E | (Hst & _)].
      * rewrite E in Hout. symmetry in Hout.
        apply app_not_self in Hout; [contradiction|].
        destruct HP as [<- | [<- | [<- | []]]]; reflexivity.
      * destruct (startswith (lower (rewrite_body once)) (lower P')) eqn:S;
          [|reflexivity].
        rewrite (starts_with_prefix_has_starter P') in Hst;
          [discriminate | assumption | assumption].
    + apply truthy_false in T. rewrite T.
      destruct HP' as [<- | [<- | [<- | []]]]; reflexivity.
Qed.

Lemma opener_never_put_before_opener_witness :
  enhance_response_authority "cl*- *ick Save" = "cl**ick Save"
  /\ enhance_response_authority "cl**ick Save" = "To do this: click Save"
  /\ startswith (lower (rewrite_body "cl**ick Save")) (lower prefix_action)
     = false.
Proof.
  split; [reflexivity|]. split; [reflexivity|].
  apply (proj2 (proj2 opener_never_put_before_opener)
           "cl*- *ick Save" prefix_action).
  - in_list.
  - reflexivity.
  - reflexivity.
  - in_list.
Defined.

(** C10, as stated, fails: here the first pass adds the prefix, the second
    removes the stars behind it, and the answer begins with the prefix
    twice. *)
Lemma opener_twice_after_two_passes :
  enhance_response_authority "*- *To do this: click Save"
  = prefix_action ++ "**To do this: click Save"
  /\ enhance_response_authority
       (enhance_response_authority "*- *To do this: click Save")
     = prefix_action ++ prefix_action ++ "click Save".
Proof. split; reflexivity. Qed.

(** ** The question splitter: what it returns *)

Lemma split_returned (w : World) (question : string) (result : list string) :
  decomposer_reply w question = Returned result ->
  split_question_into_parts w question
  = ([AskDecomposer question], Returned (chosen_parts result question)).
Proof.
  intros H. unfold split_question_into_parts, chosen_parts, call, bind.
  rewrite H.
  destruct (negb (0 <? List.length result)%nat
            || (List.length result =? 1)%nat);
    [destruct (1 <? List.length (split " and " question))%nat|];
    reflexivity.
Qed.

Lemma split_raised (w : World) (question : string) (e : exn) :
  decomposer_reply w question = Raised e ->
  split_question_into_parts w question = ([AskDecomposer question], Raised e).
Proof.
  intros H. unfold split_question_into_parts, call, bind. now rewrite H.
Qed.

Lemma split_scan_at_least_one (sep s : string) :
  forall skip, 1 <= List.length (split_scan sep skip s).
Proof.
  induction s as [|c s IH]; intros skip; [simpl; lia|].
  cbn [split_scan]. destruct skip as [|k]; [|apply IH].
  destruct (startswith (String c s) sep); [simpl; lia|].
  destruct (split_scan sep 0 s); simpl; lia.
Qed.

Lemma split_loop_length (base_context : string) (parts : list string) :
  forall i, List.length (split_loop base_context i parts) = List.length parts.
Proof.
  induction parts as [|part rest IH]; intros i; [reflexivity|].
  cbn [split_loop List.length]. now rewrite IH.
Qed.

Lemma degenerate_result (result : list string) :
  List.length result <= 1 ->
  negb (0 <? List.length result)%nat || (List.length result =? 1)%nat = true.
Proof.
  intros H. destruct result as [|x [|y l]]; [reflexivity | reflexivity|].
  simpl in H. lia.
Qed.

(** With the count at zero nothing is replaced any more. *)
Lemma replace_scan_exhausted (old new : string) (s : string) :
  forall skip, replace_scan old new (Some 0) skip s = drop skip s.
Proof.
  induction s as [|c s IH]; intros skip; [now destruct skip|].
  cbn [replace_scan]. destruct skip as [|k]; [|apply IH].
  cbn [exhausted negb andb drop]. now rewrite IH.
Qed.

Lemma drop_app (a b : string) : drop (String.length a) (a ++ b) = b.
Proof. induction a as [|c a IH]; [now destruct b | exact IH]. Qed.

(** [(old + rest).replace(old, new, 1)] is [new + rest]. *)
Lemma replace_first_at_start (c : ascii) (old' new rest : string) :
  replace_count (String c old') new (Some 1) (String c old' ++ rest)
  = new ++ rest.
Proof.
  unfold replace_count. cbn [append replace_scan].
  change (String c (old' ++ rest)) with (String c old' ++ rest).
  rewrite startswith_app. cbn [exhausted negb andb spend pred String.length].
  replace (S (String.length old') - 1) with (String.length old') by lia.
  rewrite replace_scan_exhausted, drop_app. reflexivity.
Qed.

Lemma named_domain_context (first kw : string) :
  named_domain first kw ->
  base_context_of first = kw ++ " "
  /\ strip (kw ++ " ") = kw
  /\ forall rest, ("how to " ++ kw ++ " ") ++ rest = "how to " ++ kw ++ " " ++ rest.
Proof.
  unfold base_context_of.
  intros [(-> & H1) | [(-> & H1 & H2) | (-> & H1 & H2 & H3)]];
    rewrite ?H1, ?H2, ?H3; repeat split.
Qed.

Lemma split_at_least_one (sep s : string) :
  1 <= List.length (split sep s).
Proof.
  unfold split. pose proof (split_scan_at_least_one sep s 0). lia.
Qed.

(** C1: the splitter returns an empty list exactly when the model call
    returns an empty list and the literal split finds one fragment; the
    question itself is not put in its place, and [chat] then asks and prints
    nothing and returns.  In every other case of a returning model call the
    list is not empty. *)
Theorem empty_reply_one_fragment_gives_no_sub_question (w : World)
    (question : string) (result : list string) :
  decomposer_reply w question = Returned result ->
  (exists parts,
      result_of (split_question_into_parts w question) = Returned parts
      /\ (parts = []
          <-> result = [] /\ List.length (split " and " question) = 1))
  /\ (result = [] ->
      List.length (split " and " question) = 1 ->
      result_of (split_question_into_parts w question) = Returned []
      /\ (persist_dir_exists w = true ->
          build_chain_reply w = Returned tt ->
          chat w question
          = ([BuildChain; AskDecomposer question], Returned tt))).
Proof.
  intros Hreply.
  pose proof (split_at_least_one " and " question) as Hone.
  assert (Hlit : 1 < List.length (split " and " question) ->
                 literal_split (split " and " question) <> []).
  { intros L E. apply (f_equal (@List.length string)) in E.
    unfold literal_split in E. rewrite split_loop_length in E.
    simpl in E. lia. }
  split.
  - exists (chosen_parts result question).
    rewrite (split_returned _ _ _ Hreply). split; [reflexivity|].
    unfold chosen_parts.
    destruct (1 <? List.length (split " and " question))%nat eqn:L.
    + apply Nat.ltb_lt in L. specialize (Hlit L).
      destruct result as [|x [|y l]]; cbn [List.length Nat.ltb Nat.leb
                                           Nat.eqb negb orb];
        (split; [intros E | intros [E Hlen]]);
        try congruence; try discriminate E; lia.
    + apply Nat.ltb_ge in L.
      destruct result as [|x [|y l]]; cbn [List.length Nat.ltb Nat.leb
                                           Nat.eqb negb orb];
        (split; [intros E | intros [E Hlen]]);
        try discriminate E; try (split; [reflexivity | lia]); reflexivity.
  - intros -> Hlen.
    assert (Hres : chosen_parts [] question = []).
    { unfold chosen_parts. rewrite Hlen. reflexivity. }
    split.
    + now rewrite (split_returned _ _ _ Hreply), Hres.
    + intros Hdir Hbuild. unfold chat.
      rewrite Hdir, Hbuild, (split_returned _ _ _ Hreply), Hres.
      reflexivity.
Qed.

(** C2, as amended: the literal split is taken when the model call returns
    an empty list or exactly one item; when the call raises, the splitter
    raises the same exception right after the call. *)
Theorem literal_split_when_reply_degenerate :
  (forall w question result,
     decomposer_reply w question = Returned result ->
     List.length result <= 1 ->
     1 < List.length (split " and " question) ->
     result_of (split_question_into_parts w question)
     = Returned (literal_split (split " and " question)))
  /\ (forall w question e,
        decomposer_reply w question = Raised e ->
        split_question_into_parts w question
        = ([AskDecomposer question], Raised e)).
Proof.
  split.
  - intros w question result Hreply Hlen Hparts.
    rewrite (split_returned _ _ _ Hreply). unfold chosen_parts.
    rewrite (degenerate_result _ Hlen).
    apply Nat.ltb_lt in Hparts. now rewrite Hparts.
  - intros w question e. apply split_raised.
Qed.

(** C6: on the literal path, when the first fragment names a domain and the
    second, stripped, starts with [how to] and does not hold the domain in
    any letter case, the second sub-question is [how to], the domain, and
    the rest of the fragment. *)
Theorem domain_inserted_after_how_to (w : World)
    (question first second kw rest : string)
    (result others : list string) :
  decomposer_reply w question = Returned result ->
  List.length result <= 1 ->
  split " and " question = first :: second :: others ->
  named_domain first kw ->
  strip second = "how to" ++ rest ->
  contains (lower (strip second)) kw = false ->
  exists parts,
    result_of (split_question_into_parts w question) = Returned parts
    /\ nth 0 parts EmptyString = strip first
    /\ nth 1 parts EmptyString = "how to " ++ kw ++ " " ++ rest.
Proof.
  intros Hreply Hlen Hsplit Hdom Hstart Hlacks.
  exists (literal_split (split " and " question)).
  rewrite (split_returned _ _ _ Hreply). unfold chosen_parts.
  rewrite (degenerate_result _ Hlen), Hsplit.
  split; [reflexivity|]. split; [reflexivity|].
  unfold literal_split. cbn [nth split_loop Nat.eqb].
  destruct (named_domain_context _ _ Hdom) as (-> & Hkw & Hassoc).
  unfold repair_part. rewrite Hkw, Hlacks.
  assert (truthy (kw ++ " ") = true) as -> by (apply truthy_app_r; reflexivity).
  cbn [negb andb]. rewrite Hstart, startswith_app.
  change "how to" with (String "h" "ow to") at 1.
  change ("how to" ++ rest) with (String "h" "ow to" ++ rest).
  rewrite replace_first_at_start. apply Hassoc.
Qed.

(** ** Runs in concrete environments *)

Lemma empty_reply_one_fragment_gives_no_sub_question_witness :
  result_of (split_question_into_parts (world_with (Returned []))
               "Which roles can add a repair lead?")
  = Returned []
  /\ chat (world_with (Returned [])) "Which roles can add a repair lead?"
     = ([BuildChain; AskDecomposer "Which roles can add a repair lead?"],
        Returned tt).
Proof.
  destruct (empty_reply_one_fragment_gives_no_sub_question
              (world_with (Returned []))
              "Which roles can add a repair lead?" [] eq_refl)
    as [_ H].
  destruct (H eq_refl eq_refl) as [Hres Hchat].
  split; [exact Hres | exact (Hchat eq_refl eq_refl)].
Defined.

(** When the model call raises, the splitter returns nothing, it raises;
    when the model returns one item and the question has one fragment, the
    splitter returns the model's item. *)
Example split_raises_or_keeps_model_item :
  split " and " "what's a lead" = ["what's a lead"]
  /\ result_of (split_question_into_parts
               (world_with (Raised timeout_error)) "what's a lead")
  = Raised timeout_error
  /\ result_of (split_question_into_parts
                  (world_with (Returned ["What is a lead?"])) "what's a lead")
     = Returned ["What is a lead?"]
  /\ ["What is a lead?"] <> ["what's a lead"].
Proof. repeat split. discriminate. Qed.

(** An empty reply on a question with one fragment comes back empty, and
    [chat] then asks and prints nothing. *)
Example empty_reply_one_fragment :
  result_of (split_question_into_parts (world_with (Returned [])) "hello")
  = Returned []
  /\ chat (world_with (Returned [])) "hello"
     = ([BuildChain; AskDecomposer "hello"], Returned tt).
Proof. split; reflexivity. Qed.

Lemma literal_split_when_reply_degenerate_witness :
  result_of (split_question_into_parts
               (world_with (Returned [])) "add a lead and archive a job")
  = Returned ["add a lead"; "archive a job"]
  /\ result_of (split_question_into_parts
                  (world_with (Returned ["add a lead, archive a job"]))
                  "add a lead and archive a job")
     = Returned ["add a lead"; "archive a job"].
Proof.
  split.
  - apply (proj1 literal_split_when_reply_degenerate
             (world_with (Returned [])) "add a lead and archive a job" []).
    + reflexivity.
    + simpl; lia.
    + simpl; lia.
  - apply (proj1 literal_split_when_reply_degenerate
             (world_with (Returned ["add a lead, archive a job"]))
             "add a lead and archive a job" ["add a lead, archive a job"]).
    + reflexivity.
    + simpl; lia.
    + simpl; lia.
Defined.

(** C2, as stated, fails: when the model call raises, no literal split is
    made, and [chat] answers the whole question as one. *)
Lemma raised_reply_is_not_split :
  let w := world_with (Raised timeout_error) in
  let question := "add a lead and archive a job" in
  split " and " question = ["add a lead"; "archive a job"]
  /\ result_of (split_question_into_parts w question) = Raised timeout_error
  /\ chat w question
     = ([BuildChain; AskDecomposer question; PrintSplitFailure timeout_error;
         PrintQuestion 1 question; AskChain question;
         PrintAnswer ("To do this: Click Save to " ++ question)],
        Returned tt).
Proof. intros w question. split; [|split]; reflexivity. Qed.

Lemma domain_inserted_after_how_to_witness :
  exists parts,
    result_of (split_question_into_parts (world_with (Returned []))
                 "What are the Tiling lead fields and how to convert it")
    = Returned parts
    /\ nth 0 parts EmptyString = "What are the Tiling lead fields"
    /\ nth 1 parts EmptyString = "how to tiling  convert it".
Proof.
  apply (domain_inserted_after_how_to (world_with (Returned []))
           "What are the Tiling lead fields and how to convert it"
           "What are the Tiling lead fields" "how to convert it"
           "tiling" " convert it" [] []).
  - reflexivity.
  - simpl; lia.
  - reflexivity.
  - left. split; reflexivity.
  - reflexivity.
  - reflexivity.
Defined.

(** ** The orchestrator *)

(** C7: when the store exists, the chain builds and the decomposer raises,
    [chat] prints the failure and goes on with the whole question as its one
    sub-question; how [chat] ends is then how the query for that question
    ends, never by the decomposer's exception. *)
Theorem chat_recovers_from_split_failure (w : World) (question : string)
    (e : exn) :
  persist_dir_exists w = true ->
  build_chain_reply w = Returned tt ->
  decomposer_reply w question = Raised e ->
  chat w question
  = match chain_reply w 1 question with
    | Returned answer =>
        ([BuildChain; AskDecomposer question; PrintSplitFailure e;
          PrintQuestion 1 question; AskChain question;
          PrintAnswer (enhance_response_authority answer)],
         Returned tt)
    | Raised e' =>
        ([BuildChain; AskDecomposer question; PrintSplitFailure e;
          PrintQuestion 1 question; AskChain question],
         Raised e')
    end.
Proof.
  intros Hdir Hbuild Hreply. unfold chat.
  rewrite Hdir, Hbuild, (split_raised _ _ _ Hreply).
  cbn [negb call bind try_except emit ret answer_loop app].
  destruct (chain_reply w 1 question); reflexivity.
Qed.

Lemma chat_recovers_from_split_failure_witness :
  chat (world_with (Raised timeout_error)) "add a lead and archive a job"
  = ([BuildChain; AskDecomposer "add a lead and archive a job";
      PrintSplitFailure timeout_error;
      PrintQuestion 1 "add a lead and archive a job";
      AskChain "add a lead and archive a job";
      PrintAnswer "To do this: Click Save to add a lead and archive a job"],
     Returned tt).
Proof.
  apply (chat_recovers_from_split_failure
           (world_with (Raised timeout_error))
           "add a lead and archive a job" timeout_error);
    reflexivity.
Defined.

(** C8: when the store directory does not exist, [chat] raises the
    run-ingest-first error, and it has done nothing before: no chain built,
    no decomposer or chain asked, nothing printed. *)
Theorem chat_refuses_without_store (w : World) (question : string) :
  persist_dir_exists w = false ->
  trace_of (chat w question) = []
  /\ result_of (chat w question)
     = Raised
         (mk_exn "RuntimeError"
            "No vector store found at chroma_db. Run `python main.py ingest` first.").
Proof.
  intros Hdir. unfold chat. rewrite Hdir. split; reflexivity.
Qed.

Lemma chat_refuses_without_store_witness :
  trace_of (chat world_without_store "Which roles can add a repair lead?") = []
  /\ result_of (chat world_without_store "Which roles can add a repair lead?")
     = Raised no_store_error.
Proof.
  apply (chat_refuses_without_store world_without_store
           "Which roles can add a repair lead?").
  reflexivity.
Defined.

(** ** Further properties of the splitter *)

Lemma split_scan_nonempty (sep s : string) :
  forall skip, split_scan sep skip s <> [].
Proof.
  induction s as [|c s IH]; intros skip; [discriminate|].
  cbn [split_scan]. destruct skip as [|k]; [|apply IH].
  destruct (startswith (String c s) sep); [discriminate|].
  destruct (split_scan sep 0 s); discriminate.
Qed.

Lemma split_scan_skip (sep s : string) :
  forall skip, split_scan sep skip s = split_scan sep 0 (drop skip s).
Proof.
  induction s as [|c s IH]; intros skip; [now destruct skip|].
  destruct skip as [|k]; [reflexivity|]. cbn [split_scan drop]. apply IH.
Qed.

Lemma join_cons_char (sep : string) (c : ascii) (h : string)
    (t : list string) :
  join sep (String c h :: t) = String c (join sep (h :: t)).
Proof. destruct t; reflexivity. Qed.

Lemma join_after_empty (sep : string) (l : list string) :
  l <> [] -> join sep (EmptyString :: l) = sep ++ join sep l.
Proof. destruct l; [congruence | reflexivity]. Qed.

Lemma join_split_bounded (sep : string) :
  truthy sep = true ->
  forall n s, String.length s <= n -> join sep (split sep s) = s.
Proof.
  intros Hsep. unfold split.
  induction n as [|n IH]; intros s Hlen.
  - destruct s; [reflexivity | simpl in Hlen; lia].
  - destruct s as [|c s]; [reflexivity|].
    cbn [split_scan]. destruct (startswith (String c s) sep) eqn:E.
    + apply startswith_spec in E as [rest E].
      destruct sep as [|d sep']; [discriminate|].
      cbn [append] in E. injection E as -> ->.
      cbn [String.length].
      replace (S (String.length sep') - 1) with (String.length sep') by lia.
      rewrite split_scan_skip, drop_app.
      rewrite join_after_empty by apply split_scan_nonempty.
      rewrite IH; [reflexivity|].
      simpl in Hlen. rewrite str_length_app in Hlen. lia.
    + pose proof (split_scan_nonempty sep s 0) as Hne.
      destruct (split_scan sep 0 s) as [|h t] eqn:Es; [congruence|].
      rewrite join_cons_char, <- Es, IH; [reflexivity|].
      simpl in Hlen. lia.
Qed.

(** [sep.join(s.split(sep))] is [s]. *)
Lemma join_split (sep s : string) :
  truthy sep = true -> join sep (split sep s) = s.
Proof. intros H. now apply (join_split_bounded sep H (String.length s)). Qed.


(** X2: when the model call returns two items or more, the splitter returns
    them as they are, whatever the question holds. *)
Theorem model_list_kept (w : World) (question : string)
    (result : list string) :
  decomposer_reply w question = Returned result ->
  2 <= List.length result ->
  split_question_into_parts w question
  = ([AskDecomposer question], Returned result).
Proof.
  intros Hreply Hlen. rewrite (split_returned _ _ _ Hreply).
  unfold chosen_parts.
  destruct result as [|x [|y l]]; simpl in Hlen; try lia. reflexivity.
Qed.

Lemma model_list_kept_witness :
  split_question_into_parts
    (world_with (Returned ["how to add a tiling lead"; "how to archive it"]))
    "how to add a tiling lead and how to archive it"
  = ([AskDecomposer "how to add a tiling lead and how to archive it"],
     Returned ["how to add a tiling lead"; "how to archive it"]).
Proof.
  apply (model_list_kept
           (world_with
              (Returned ["how to add a tiling lead"; "how to archive it"]))).
  - reflexivity.
  - simpl; lia.
Defined.

Lemma split_loop_no_context (parts : list string) :
  forall i, split_loop EmptyString i parts = map strip parts.
Proof.
  induction parts as [|part rest IH]; intros i; [reflexivity|].
  cbn [split_loop map]. rewrite IH.
  change (repair_part EmptyString part) with (strip part).
  now destruct (i =? 0)%nat.
Qed.

(** X3: on the literal path, when the first fragment names none of tiling,
    repair and excavation, the sub-questions are the fragments with their
    surrounding whitespace removed, and nothing else is changed. *)
Theorem literal_split_without_domain (w : World) (question : string)
    (result : list string) :
  decomposer_reply w question = Returned result ->
  List.length result <= 1 ->
  1 < List.length (split " and " question) ->
  contains_any (lower (nth 0 (split " and " question) EmptyString))
    [ "tiling"; "repair"; "excavation" ] = false ->
  result_of (split_question_into_parts w question)
  = Returned (map strip (split " and " question)).
Proof.
  intros Hreply Hlen Hparts Hnone.
  rewrite (split_returned _ _ _ Hreply). unfold chosen_parts.
  rewrite (degenerate_result _ Hlen).
  apply Nat.ltb_lt in Hparts. rewrite Hparts.
  unfold literal_split, base_context_of.
  cbn [contains_any existsb] in Hnone. rewrite orb_false_r in Hnone.
  apply orb_false_iff in Hnone as [H1 H2].
  apply orb_false_iff in H2 as [H2 H3].
  rewrite H1, H2, H3. cbn [result_of snd].
  now rewrite split_loop_no_context.
Qed.

Lemma literal_split_without_domain_witness :
  result_of (split_question_into_parts (world_with (Returned []))
               "Who can add a lead  and how to archive a job")
  = Returned ["Who can add a lead"; "how to archive a job"].
Proof.
  apply (literal_split_without_domain (world_with (Returned []))
           "Who can add a lead  and how to archive a job" []).
  - reflexivity.
  - simpl; lia.
  - simpl; lia.
  - reflexivity.
Defined.

Lemma split_loop_nth (base_context : string) (parts : list string) :
  forall i k,
    i < List.length parts ->
    nth i (split_loop base_context k parts) EmptyString
    = if (k + i =? 0)%nat then strip (nth i parts EmptyString)
      else repair_part base_context (nth i parts EmptyString).
Proof.
  induction parts as [|part rest IH]; intros i k Hi; [simpl in Hi; lia|].
  destruct i as [|i].
  - cbn [split_loop nth]. now rewrite Nat.add_0_r.
  - cbn [split_loop nth]. simpl in Hi. rewrite IH by lia.
    replace (S k + i) with (k + S i) by lia.
    destruct (k + S i =? 0)%nat eqn:E; [|reflexivity].
    apply Nat.eqb_eq in E. lia.
Qed.

(** X4: on the literal path a fragment after the first is only stripped
    when it already names the domain of the first fragment, in any letter
    case, or when it begins with none of [how to], [what] and [which]. *)
Theorem later_fragment_only_stripped (w : World) (question : string)
    (result : list string) (i : nat) :
  let parts := split " and " question in
  let part := strip (nth (S i) parts EmptyString) in
  decomposer_reply w question = Returned result ->
  List.length result <= 1 ->
  S i < List.length parts ->
  contains (lower part) (strip (base_context_of (nth 0 parts EmptyString)))
  = true
  \/ startswith_any part [ "how to"; "what"; "which" ] = false ->
  exists sub_questions,
    result_of (split_question_into_parts w question) = Returned sub_questions
    /\ nth (S i) sub_questions EmptyString = part.
Proof.
  intros parts part Hreply Hlen Hi Hkeep.
  exists (literal_split parts).
  rewrite (split_returned _ _ _ Hreply). unfold chosen_parts.
  rewrite (degenerate_result _ Hlen). fold parts.
  assert ((1 <? List.length parts)%nat = true) as ->
    by (apply Nat.ltb_lt; lia).
  split; [reflexivity|].
  unfold literal_split. rewrite split_loop_nth by assumption.
  cbn [Nat.add Nat.eqb]. unfold repair_part. fold part.
  destruct Hkeep as [Hhas | Hnone].
  - rewrite Hhas. cbn [negb]. now rewrite andb_false_r.
  - cbn [startswith_any existsb] in Hnone. rewrite orb_false_r in Hnone.
    apply orb_false_iff in Hnone as [H1 H2].
    apply orb_false_iff in H2 as [H2 H3].
    rewrite H1, H2, H3.
    now destruct (truthy (base_context_of (nth 0 parts EmptyString))
                  && negb (contains (lower part)
                             (strip (base_context_of
                                       (nth 0 parts EmptyString))))).
Qed.

Lemma later_fragment_only_stripped_witness :
  exists sub_questions,
    result_of (split_question_into_parts (world_with (Returned []))
                 "how to add a repair lead and can a Repair lead hold files")
    = Returned sub_questions
    /\ nth 1 sub_questions EmptyString = "can a Repair lead hold files".
Proof.
  apply (later_fragment_only_stripped (world_with (Returned []))
           "how to add a repair lead and can a Repair lead hold files" [] 0).
  - reflexivity.
  - simpl; lia.
  - simpl; lia.
  - left. reflexivity.
Defined.

(** ** Further properties of the rewriter *)

(** X5: the [Steps:] opener is never added: a text that begins with [1.]
    already counts as beginning with an opener and is left as it is. *)
Theorem steps_opener_never_added (response : string) :
  (startswith (lower response) "1." = true -> add_opener response = response)
  /\ add_opener response <> prefix_steps ++ response.
Proof.
  assert (Hone : startswith (lower response) "1." = true ->
                 startswith_any (lower response) starters = true).
  { intros H. apply existsb_exists. exists "1.". split; [in_list | exact H]. }
  split.
  - intros H. unfold add_opener. now rewrite (Hone H).
  - unfold add_opener.
    destruct (startswith_any (lower response) starters) eqn:E; cbn [negb].
    + intros H. symmetry in H. now apply app_not_self in H.
    + destruct (contains_any (take 30 (lower response)) action_words);
        [unfold prefix_action, prefix_steps; cbn [append]; discriminate|].
      destruct (startswith (lower response) "1.") eqn:S1;
        [discriminate (Hone eq_refl)|].
      destruct (contains_any (take 20 (lower response)) equipment_words);
        [unfold prefix_equipment, prefix_steps; cbn [append]; discriminate|].
      intros H. symmetry in H. now apply app_not_self in H.
Qed.

Lemma steps_opener_never_added_witness :
  add_opener "1. Click Leads" = "1. Click Leads".
Proof.
  apply (proj1 (steps_opener_never_added "1. Click Leads")). reflexivity.
Defined.

(** *** Surrounding whitespace *)

Lemma lstrip_solid (s : string) : starts_solid s = true -> lstrip s = s.
Proof.
  destruct s as [|c s]; [reflexivity|]. cbn [starts_solid lstrip].
  now destruct (is_space c).
Qed.

Lemma rstrip_cons (c : ascii) (s : string) :
  rstrip (String c s)
  = match rstrip s with
    | EmptyString => if is_space c then EmptyString else String c EmptyString
    | r => String c r
    end.
Proof. reflexivity. Qed.

Lemma rstrip_solid (s : string) : ends_solid s = true -> rstrip s = s.
Proof.
  induction s as [|c s IH]; [reflexivity|]. intros H.
  destruct s as [|d s].
  - cbn [ends_solid] in H. cbn [rstrip]. now destruct (is_space c).
  - change (ends_solid (String d s) = true) in H.
    now rewrite rstrip_cons, (IH H).
Qed.

Lemma strip_solid (s : string) :
  starts_solid s = true -> ends_solid s = true -> strip s = s.
Proof.
  intros H1 H2. unfold strip. rewrite (lstrip_solid _ H1).
  now apply rstrip_solid.
Qed.

Lemma lstrip_starts (s : string) :
  truthy (lstrip s) = true -> starts_solid (lstrip s) = true.
Proof.
  induction s as [|c s IH]; [discriminate|]. cbn [lstrip].
  destruct (is_space c) eqn:E; [exact IH|]. intros _. cbn. now rewrite E.
Qed.

Lemma rstrip_ends (s : string) :
  truthy (rstrip s) = true -> ends_solid (rstrip s) = true.
Proof.
  induction s as [|c s IH]; [discriminate|]. rewrite rstrip_cons.
  destruct (rstrip s) as [|d r].
  - destruct (is_space c) eqn:E; [intros H; discriminate H|].
    intros _. cbn. now rewrite E.
  - intros _. change (ends_solid (String d r) = true). now apply IH.
Qed.

Lemma rstrip_starts (s : string) :
  starts_solid s = true -> truthy (rstrip s) = true ->
  starts_solid (rstrip s) = true.
Proof.
  destruct s as [|c s]; [discriminate|]. rewrite rstrip_cons.
  cbn [starts_solid]. intros Hc. destruct (rstrip s); [|intros _; exact Hc].
  destruct (is_space c) eqn:E; [intros H; discriminate H|].
  intros _. cbn [starts_solid]. now rewrite E.
Qed.

Lemma strip_is_solid (s : string) :
  truthy (strip s) = true ->
  starts_solid (strip s) = true /\ ends_solid (strip s) = true.
Proof.
  unfold strip. intros H. split; [|now apply rstrip_ends].
  apply rstrip_starts; [|assumption]. apply lstrip_starts.
  destruct (lstrip s); [discriminate | reflexivity].
Qed.

Lemma starts_solid_app (a b : string) :
  starts_solid a = true -> starts_solid (a ++ b) = true.
Proof. destruct a; [discriminate | trivial]. Qed.

Lemma ends_solid_app (a b : string) :
  ends_solid b = true -> ends_solid (a ++ b) = true.
Proof.
  intros H. induction a as [|c a IH]; [assumption|].
  cbn [append]. destruct (a ++ b) eqn:E; [discriminate|].
  exact IH.
Qed.

Lemma solid_truthy (s : string) : solid s -> truthy s = true.
Proof. intros [H _]. destruct s; [discriminate | reflexivity]. Qed.

Lemma join_solid (sep : string) (lines : list string) :
  Forall solid lines -> lines <> [] -> solid (join sep lines).
Proof.
  induction lines as [|x [|y l] IH]; intros Hall Hne; [congruence| |].
  - now inversion Hall.
  - inversion Hall as [|? ? [Hx1 Hx2] Hrest]; subst.
    change (join sep (x :: y :: l)) with (x ++ sep ++ join sep (y :: l)).
    destruct (IH Hrest ltac:(discriminate)) as [_ Hend].
    split; [now apply starts_solid_app|].
    now apply ends_solid_app, ends_solid_app.
Qed.

Lemma kept_lines_solid (lines : list string) :
  Forall solid (filter keep_line (map strip lines)).
Proof.
  induction lines as [|x l IH]; [constructor|].
  cbn [map filter]. destruct (keep_line (strip x)) eqn:K; [|exact IH].
  constructor; [|exact IH].
  apply strip_is_solid. unfold keep_line in K.
  now apply andb_true_iff in K as [K _].
Qed.

Lemma clean_lines_solid (response : string) :
  truthy (clean_lines response) = true -> solid (clean_lines response).
Proof.
  unfold clean_lines. intros H.
  apply join_solid; [apply kept_lines_solid|].
  intros E. rewrite E in H. discriminate H.
Qed.

Lemma add_opener_solid (response : string) :
  solid response -> solid (add_opener response).
Proof.
  intros Hs.
  destruct (add_opener_cases response) as [-> | (_ & P & HP & ->)];
    [assumption|].
  destruct Hs as [_ Hend]. split; [|now apply ends_solid_app].
  apply starts_solid_app.
  destruct HP as [<- | [<- | [<- | []]]]; reflexivity.
Qed.

(** X6: past the early return an answer has no whitespace at its start or at
    its end: stripping it changes nothing. *)
Theorem answer_is_trimmed (raw : string) :
  is_no_answer raw = false ->
  strip (enhance_response_authority raw) = enhance_response_authority raw.
Proof.
  intros Hno. unfold enhance_response_authority. rewrite Hno.
  destruct (truthy (rewrite_body raw)) eqn:T; cbn [negb]; [|reflexivity].
  destruct (add_opener_solid (rewrite_body raw)) as [H1 H2];
    [now apply clean_lines_solid | now apply strip_solid].
Qed.

Lemma answer_is_trimmed_witness :
  enhance_response_authority
    ("  - Open the **Leads** page  " ++ nl ++ nl ++ "  That's it!  " ++ nl)
  = "Open the Leads page"
  /\ strip "Open the Leads page" = "Open the Leads page".
Proof.
  split; [reflexivity|].
  apply (answer_is_trimmed
           ("  - Open the **Leads** page  " ++ nl ++ nl ++ "  That's it!  "
            ++ nl)).
  reflexivity.
Defined.

(** *** Texts with nothing to rewrite *)

Lemma contains_any_false (s : string) (ps : list string) :
  contains_any s ps = false -> forall t, In t ps -> contains s t = false.
Proof.
  intros H t Ht. destruct (contains s t) eqn:E; [|reflexivity].
  assert (contains_any s ps = true)
    by (apply existsb_exists; now exists t).
  congruence.
Qed.

Lemma contains_false_cons (c : ascii) (s old : string) :
  contains (String c s) old = false ->
  startswith (String c s) old = false /\ contains s old = false.
Proof. rewrite contains_cons. apply orb_false_iff. Qed.

Lemma replace_scan_absent (old new : string) (s : string) :
  contains s old = false ->
  forall count, replace_scan old new count 0 s = s.
Proof.
  induction s as [|c s IH]; intros H count; [reflexivity|].
  apply contains_false_cons in H as [Hs Hc].
  cbn [replace_scan]. rewrite Hs, andb_false_r. now rewrite IH.
Qed.

(** Replacing a text that does not occur changes nothing. *)
Lemma replace_absent (old new s : string) :
  contains s old = false -> replace old new s = s.
Proof.
  intros H. unfold replace, replace_count. destruct old as [|d old].
  - destruct s; discriminate H.
  - now apply replace_scan_absent.
Qed.

Lemma remove_all_absent (ps : list string) (s : string) :
  contains_any s ps = false -> remove_all ps s = s.
Proof.
  unfold remove_all, contains_any.
  induction ps as [|ph ps IH]; intros H; [reflexivity|].
  cbn [existsb] in H. apply orb_false_iff in H as [H1 H2].
  cbn [fold_left]. rewrite (replace_absent _ _ _ H1). now apply IH.
Qed.

Lemma split_absent (sep s : string) :
  contains s sep = false -> split sep s = [s].
Proof.
  unfold split. induction s as [|c s IH]; intros H; [reflexivity|].
  apply contains_false_cons in H as [Hs Hc].
  cbn [split_scan]. now rewrite Hs, (IH Hc).
Qed.

Lemma lstrip_within (s : string) : exists l, s = l ++ lstrip s.
Proof.
  induction s as [|c s [l IH]]; [now exists EmptyString|].
  cbn [lstrip]. destruct (is_space c).
  - exists (String c l). cbn [append]. now rewrite <- IH.
  - now exists EmptyString.
Qed.

Lemma rstrip_within (s : string) : exists r, s = rstrip s ++ r.
Proof.
  induction s as [|c s [r IH]]; [now exists EmptyString|].
  rewrite rstrip_cons. destruct (rstrip s) as [|d t].
  - destruct (is_space c).
    + now exists (String c s).
    + exists r. cbn [append] in *. now rewrite <- IH.
  - exists r. cbn [append] in *. now rewrite <- IH.
Qed.

(** What the stripped text holds, the text holds. *)
Lemma contains_strip (s t : string) :
  contains (strip s) t = true -> contains s t = true.
Proof.
  intros H. apply contains_spec in H as (a & b & H).
  destruct (lstrip_within s) as [l Hl].
  destruct (rstrip_within (lstrip s)) as [r Hr].
  apply contains_spec. exists (l ++ a), (b ++ r).
  rewrite Hl, Hr. fold (strip s). rewrite H.
  now rewrite !app_assoc_str.
Qed.

Lemma rewrite_body_absent (raw : string) :
  contains_any raw rewritten_texts = false ->
  rewrite_body raw = clean_lines (strip raw).
Proof.
  intros Hnone.
  pose proof (contains_any_false _ _ Hnone) as Habs.
  assert (Hformal : contains_any raw formal_phrases = false).
  { destruct (contains_any raw formal_phrases) eqn:E; [|reflexivity].
    apply existsb_exists in E as (t & Ht & E).
    rewrite Habs in E; [discriminate|].
    unfold rewritten_texts. apply in_or_app. now left. }
  assert (Hverbose : contains_any (strip raw) verbose_phrases = false).
  { destruct (contains_any (strip raw) verbose_phrases) eqn:E; [|reflexivity].
    apply existsb_exists in E as (t & Ht & E).
    apply contains_strip in E. rewrite Habs in E; [discriminate|].
    unfold rewritten_texts. apply in_or_app. right.
    apply in_or_app. now right. }
  assert (Hmid : forall t,
             In t [ "**"; "- "; "* ";
                    "The system requires"; "The documentation specifies";
                    "official system procedures"; "documented procedures";
                    "cannot be added"; "can only be added" ] ->
             contains raw t = false).
  { intros t Ht. apply Habs. unfold rewritten_texts.
    apply in_or_app. right. apply in_or_app. now left. }
  unfold rewrite_body.
  rewrite (remove_all_absent _ _ Hformal).
  unfold strip_markdown.
  rewrite (replace_absent "**" _ raw) by (apply Hmid; in_list).
  rewrite (replace_absent "- " _ raw) by (apply Hmid; in_list).
  rewrite (replace_absent "* " _ raw) by (apply Hmid; in_list).
  unfold soften.
  rewrite (replace_absent "The system requires" _ raw)
    by (apply Hmid; in_list).
  rewrite (replace_absent "The documentation specifies" _ raw)
    by (apply Hmid; in_list).
  rewrite (replace_absent "official system procedures" _ raw)
    by (apply Hmid; in_list).
  rewrite (replace_absent "documented procedures" _ raw)
    by (apply Hmid; in_list).
  rewrite (replace_absent "cannot be added" _ raw) by (apply Hmid; in_list).
  rewrite (replace_absent "can only be added" _ raw) by (apply Hmid; in_list).
  now rewrite (remove_all_absent _ _ Hverbose).
Qed.

Lemma rewrite_body_plain (raw : string) :
  contains_any raw rewritten_texts = false ->
  contains raw nl = false ->
  solid raw ->
  contains_any (lower raw) skip_phrases = false ->
  rewrite_body raw = raw.
Proof.
  intros Hnone Hnl [H1 H2] Hskip.
  rewrite (rewrite_body_absent raw Hnone), (strip_solid _ H1 H2).
  unfold clean_lines. rewrite (split_absent _ _ Hnl). cbn [map].
  rewrite (strip_solid _ H1 H2). cbn [filter]. unfold keep_line.
  rewrite Hskip, (solid_truthy raw (conj H1 H2)). reflexivity.
Qed.

Lemma plain_parts (raw : string) :
  plain raw = true ->
  is_no_answer raw = false
  /\ contains_any raw rewritten_texts = false
  /\ contains raw nl = false
  /\ solid raw
  /\ contains_any (lower raw) skip_phrases = false.
Proof.
  unfold plain, solid. intros H.
  apply andb_true_iff in H as [H Hskip].
  apply andb_true_iff in H as [H Hend].
  apply andb_true_iff in H as [H Hstart].
  apply andb_true_iff in H as [H Hnl].
  apply andb_true_iff in H as [Hno Hnone].
  apply negb_true_iff in Hskip, Hnl, Hno, Hnone. tauto.
Qed.

(** X7: a one-line answer that holds none of the texts the rewriter looks
    for, no surrounding whitespace and no skip phrase comes out as it went
    in, with at most one opener in front; when it begins with a recognised
    opener it comes out unchanged. *)
Theorem plain_answer_kept (raw : string) :
  plain raw = true ->
  enhance_response_authority raw = add_opener raw
  /\ (startswith_any (lower raw) starters = true ->
      enhance_response_authority raw = raw).
Proof.
  intros H. destruct (plain_parts raw H) as (Hno & Hnone & Hnl & Hs & Hskip).
  assert (E : enhance_response_authority raw = add_opener raw).
  { unfold enhance_response_authority.
    rewrite Hno, (rewrite_body_plain raw Hnone Hnl Hs Hskip).
    now rewrite (solid_truthy raw Hs). }
  split; [exact E|].
  intros Hst. rewrite E. unfold add_opener. now rewrite Hst.
Qed.

Lemma plain_answer_kept_witness :
  enhance_response_authority "You can add files from the lead's page."
  = "You can add files from the lead's page.".
Proof.
  apply (proj2 (plain_answer_kept "You can add files from the lead's page."
                  eq_refl)).
  reflexivity.
Defined.

(** *** Blank texts *)

Lemma lower_char_space (c : ascii) : is_space c = true -> lower_char c = c.
Proof.
  destruct c as [[|] [|] [|] [|] [|] [|] [|] [|]];
    intros H; try reflexivity; discriminate H.
Qed.

Lemma lower_blank (s : string) : str_forall is_space s = true -> lower s = s.
Proof.
  induction s as [|c s IH]; intros H; [reflexivity|].
  cbn [str_forall] in H. apply andb_true_iff in H as [Hc H].
  cbn [lower]. now rewrite (lower_char_space c Hc), IH.
Qed.

Lemma lstrip_blank (s : string) :
  str_forall is_space s = true -> lstrip s = EmptyString.
Proof.
  induction s as [|c s IH]; intros H; [reflexivity|].
  cbn [str_forall] in H. apply andb_true_iff in H as [Hc H].
  cbn [lstrip]. rewrite Hc. now apply IH.
Qed.

Lemma blank_contains (s t : string) :
  str_forall is_space s = true -> starts_solid t = true ->
  contains s t = false.
Proof.
  intros Hs Ht. destruct t as [|c q]; [discriminate|].
  cbn [starts_solid] in Ht. apply negb_true_iff in Ht.
  induction s as [|d s IH]; [reflexivity|].
  cbn [str_forall] in Hs. apply andb_true_iff in Hs as [Hd Hs].
  rewrite contains_cons, startswith_cons, (IH Hs), orb_false_r.
  destruct (Ascii.eqb_spec d c) as [->|]; [congruence | reflexivity].
Qed.

Lemma blank_contains_any (s : string) (ps : list string) :
  str_forall is_space s = true -> forallb starts_solid ps = true ->
  contains_any s ps = false.
Proof.
  intros Hs. unfold contains_any.
  induction ps as [|t ps IH]; intros H; [reflexivity|].
  cbn [forallb] in H. apply andb_true_iff in H as [Ht H].
  cbn [existsb]. now rewrite (blank_contains s t Hs Ht), IH.
Qed.

(** X8: a raw text made of whitespace only, the empty text included, gives
    the fixed fallback sentence. *)
Theorem blank_answer_gives_fallback (raw : string) :
  str_forall is_space raw = true ->
  enhance_response_authority raw = fallback_answer.
Proof.
  intros H. unfold enhance_response_authority.
  assert (is_no_answer raw = false) as ->.
  { rewrite is_no_answer_any, (lower_blank raw H).
    now apply blank_contains_any. }
  rewrite rewrite_body_absent by now apply blank_contains_any.
  unfold strip. now rewrite (lstrip_blank raw H).
Qed.

Lemma blank_answer_gives_fallback_witness :
  enhance_response_authority ("  " ++ nl ++ " " ++ nl)
  = "I can help you with that based on the system documentation.".
Proof.
  apply (blank_answer_gives_fallback ("  " ++ nl ++ " " ++ nl)).
  reflexivity.
Defined.

(** ** Further properties of the orchestrator *)

Lemma answer_loop_cons (w : World) (i : nat) (q : string)
    (rest : list string) :
  answer_loop w i (q :: rest)
  = match chain_reply w i q with
    | Returned answer =>
        ([ PrintQuestion i q; AskChain q;
           PrintAnswer (enhance_response_authority answer) ]
         ++ trace_of (answer_loop w (S i) rest),
         result_of (answer_loop w (S i) rest))%list
    | Raised e => ([ PrintQuestion i q; AskChain q ], Raised e)
    end.
Proof.
  cbn [answer_loop]. unfold bind, emit, call, trace_of, result_of.
  destruct (chain_reply w i q); [|reflexivity].
  now destruct (answer_loop w (S i) rest).
Qed.

Lemma answer_loop_answered (w : World) (answer_of : nat -> string -> string)
    (sub_questions : list string) :
  forall i,
    (forall k q, nth_error sub_questions k = Some q ->
                 chain_reply w (i + k) q = Returned (answer_of (i + k) q)) ->
    answer_loop w i sub_questions
    = (answered answer_of i sub_questions, Returned tt).
Proof.
  induction sub_questions as [|q rest IH]; intros i H; [reflexivity|].
  rewrite answer_loop_cons.
  pose proof (H 0 q eq_refl) as H0. rewrite Nat.add_0_r in H0. rewrite H0.
  rewrite IH; [reflexivity|].
  intros k q' Hk. replace (S i + k) with (i + S k) by lia. now apply H.
Qed.

Lemma answer_loop_aborts (w : World) (answer_of : nat -> string -> string)
    (done : list string) (q : string) (rest : list string) (e : exn) :
  forall i,
    (forall k q', nth_error done k = Some q' ->
                  chain_reply w (i + k) q' = Returned (answer_of (i + k) q')) ->
    chain_reply w (i + List.length done) q = Raised e ->
    answer_loop w i (done ++ q :: rest)
    = ((answered answer_of i done
        ++ [ PrintQuestion (i + List.length done) q; AskChain q ])%list,
       Raised e).
Proof.
  induction done as [|d done IH]; intros i H He.
  - cbn [List.length] in He. rewrite Nat.add_0_r in He.
    cbn [app answered]. rewrite answer_loop_cons, He.
    now rewrite Nat.add_0_r.
  - cbn [app]. rewrite answer_loop_cons.
    pose proof (H 0 d eq_refl) as H0. rewrite Nat.add_0_r in H0. rewrite H0.
    rewrite (IH (S i)).
    + cbn [trace_of result_of fst snd answered List.length].
      replace (S i + List.length done) with (i + S (List.length done)) by lia.
      reflexivity.
    + intros k q' Hk. replace (S i + k) with (i + S k) by lia. now apply H.
    + cbn [List.length] in He.
      now replace (S i + List.length done)
        with (i + S (List.length done)) by lia.
Qed.

Lemma chat_after_split (w : World) (question : string)
    (result : list string) :
  persist_dir_exists w = true ->
  build_chain_reply w = Returned tt ->
  decomposer_reply w question = Returned result ->
  chat w question
  = (([ BuildChain; AskDecomposer question ]
      ++ trace_of (answer_loop w 1 (chosen_parts result question)))%list,
     result_of (answer_loop w 1 (chosen_parts result question))).
Proof.
  intros Hdir Hbuild Hreply. unfold chat.
  rewrite Hdir, Hbuild, (split_returned _ _ _ Hreply).
  cbn [negb call bind try_except]. unfold trace_of, result_of.
  now destruct (answer_loop w 1 (chosen_parts result question)).
Qed.

(** X9: when the store exists, the chain builds, the decomposer returns and
    every query is answered, [chat] takes the sub-questions in their order:
    for each it prints the question with its number, counted from 1, asks
    the chain, and prints the rewritten answer before it goes to the next;
    then it returns. *)
Theorem chat_answers_in_order (w : World) (question : string)
    (result : list string) (answer_of : nat -> string -> string) :
  persist_dir_exists w = true ->
  build_chain_reply w = Returned tt ->
  decomposer_reply w question = Returned result ->
  (forall k q, nth_error (chosen_parts result question) k = Some q ->
               chain_reply w (1 + k) q = Returned (answer_of (1 + k) q)) ->
  chat w question
  = (([ BuildChain; AskDecomposer question ]
      ++ answered answer_of 1 (chosen_parts result question))%list,
     Returned tt).
Proof.
  intros Hdir Hbuild Hreply Hall.
  rewrite (chat_after_split _ _ _ Hdir Hbuild Hreply).
  now rewrite (answer_loop_answered w answer_of _ 1 Hall).
Qed.

Lemma chat_answers_in_order_witness :
  chat (world_with (Returned ["Who adds a lead?"; "Who archives a job?"]))
    "Who adds a lead and who archives a job?"
  = ([ BuildChain; AskDecomposer "Who adds a lead and who archives a job?";
       PrintQuestion 1 "Who adds a lead?"; AskChain "Who adds a lead?";
       PrintAnswer "To do this: Click Save to Who adds a lead?";
       PrintQuestion 2 "Who archives a job?"; AskChain "Who archives a job?";
       PrintAnswer "To do this: Click Save to Who archives a job?" ],
     Returned tt).
Proof.
  apply (chat_answers_in_order
           (world_with (Returned ["Who adds a lead?"; "Who archives a job?"]))
           "Who adds a lead and who archives a job?"
           ["Who adds a lead?"; "Who archives a job?"]
           (fun _ q => "Click Save to " ++ q));
    reflexivity.
Defined.

(** X10: when the query for one sub-question raises, [chat] raises that
    exception at once: the sub-questions before it have been answered and
    printed, the failing one has been printed and asked, and the ones after
    it are neither printed nor asked. *)
Theorem chat_stops_at_first_failure (w : World) (question : string)
    (result done rest : list string) (failing : string)
    (answer_of : nat -> string -> string) (e : exn) :
  persist_dir_exists w = true ->
  build_chain_reply w = Returned tt ->
  decomposer_reply w question = Returned result ->
  chosen_parts result question = (done ++ failing :: rest)%list ->
  (forall k q, nth_error done k = Some q ->
               chain_reply w (1 + k) q = Returned (answer_of (1 + k) q)) ->
  chain_reply w (1 + List.length done) failing = Raised e ->
  chat w question
  = (([ BuildChain; AskDecomposer question ]
      ++ answered answer_of 1 done
      ++ [ PrintQuestion (1 + List.length done) failing; AskChain failing ])
     %list,
     Raised e).
Proof.
  intros Hdir Hbuild Hreply Hparts Hdone Hfail.
  rewrite (chat_after_split _ _ _ Hdir Hbuild Hreply), Hparts.
  now rewrite (answer_loop_aborts w answer_of done failing rest e 1 Hdone Hfail).
Qed.

Lemma chat_stops_at_first_failure_witness :
  chat (world_failing_on "b?" (Returned ["a?"; "b?"; "c?"])) "a, b and c?"
  = ([ BuildChain; AskDecomposer "a, b and c?";
       PrintQuestion 1 "a?"; AskChain "a?";
       PrintAnswer "To do this: Click Save to a?";
       PrintQuestion 2 "b?"; AskChain "b?" ],
     Raised timeout_error).
Proof.
  apply (chat_stops_at_first_failure
           (world_failing_on "b?" (Returned ["a?"; "b?"; "c?"]))
           "a, b and c?" ["a?"; "b?"; "c?"] ["a?"] ["c?"] "b?"
           (fun _ q => "Click Save to " ++ q) timeout_error);
    try reflexivity.
  intros [|[|k]] q H; [injection H as <-; reflexivity | discriminate H|].
  simpl in H. destruct k; discriminate H.
Defined.

Lemma chat_after_failure (w : World) (question : string) (e : exn) :
  persist_dir_exists w = true ->
  build_chain_reply w = Returned tt ->
  decomposer_reply w question = Raised e ->
  chat w question
  = (([ BuildChain; AskDecomposer question; PrintSplitFailure e ]
      ++ trace_of (answer_loop w 1 [question]))%list,
     result_of (answer_loop w 1 [question])).
Proof.
  intros Hdir Hbuild Hreply. unfold chat.
  rewrite Hdir, Hbuild, (split_raised _ _ _ Hreply).
  cbn [negb call bind try_except emit ret app]. unfold trace_of, result_of.
  now destruct (answer_loop w 1 [question]).
Qed.

Lemma answer_loop_prints (w : World) (a : string)
    (sub_questions : list string) :
  forall i,
    In (PrintAnswer a) (trace_of (answer_loop w i sub_questions)) ->
    exists k q raw,
      chain_reply w k q = Returned raw /\ a = enhance_response_authority raw.
Proof.
  induction sub_questions as [|q rest IH]; intros i H; [contradiction|].
  rewrite answer_loop_cons in H.
  destruct (chain_reply w i q) as [raw|e] eqn:E.
  - cbn [trace_of fst app In] in H.
    destruct H as [H | [H | [H | H]]]; try discriminate H.
    + injection H as <-. now exists i, q, raw.
    + now apply (IH (S i)).
  - cbn [trace_of fst In] in H.
    destruct H as [H | [H | []]]; discriminate H.
Qed.

(** X11: whatever the environment does, every answer [chat] prints is the
    rewriting of a text the chain returned, and it is never empty. *)
Theorem chat_prints_rewritten_answers (w : World) (question a : string) :
  In (PrintAnswer a) (trace_of (chat w question)) ->
  a <> EmptyString
  /\ exists k q raw,
       chain_reply w k q = Returned raw /\ a = enhance_response_authority raw.
Proof.
  intros H.
  assert (Hraw : exists k q raw,
             chain_reply w k q = Returned raw
             /\ a = enhance_response_authority raw).
  { destruct (persist_dir_exists w) eqn:Hdir;
      [|unfold chat in H; rewrite Hdir in H; contradiction].
    destruct (build_chain_reply w) as [[]|e] eqn:Hbuild.
    - destruct (decomposer_reply w question) as [result|e] eqn:Hreply.
      + rewrite (chat_after_split _ _ _ Hdir Hbuild Hreply) in H.
        cbn [trace_of fst app In] in H.
        destruct H as [H | [H | H]]; try discriminate H.
        now apply answer_loop_prints in H.
      + rewrite (chat_after_failure _ _ _ Hdir Hbuild Hreply) in H.
        cbn [trace_of fst app In] in H.
        destruct H as [H | [H | [H | H]]]; try discriminate H.
        now apply answer_loop_prints in H.
    - unfold chat in H. rewrite Hdir, Hbuild in H.
      cbn [negb call bind trace_of fst In] in H.
      destruct H as [H | []]; discriminate H. }
  split; [|exact Hraw].
  destruct Hraw as (k & q & raw & _ & ->).
  apply truthy_true, enhance_truthy.
Qed.

Lemma chat_prints_rewritten_answers_witness :
  "To do this: Click Save to hello" <> EmptyString
  /\ exists k q raw,
       chain_reply (world_with (Returned ["hello"])) k q = Returned raw
       /\ "To do this: Click Save to hello" = enhance_response_authority raw.
Proof.
  apply (chat_prints_rewritten_answers (world_with (Returned ["hello"]))
           "hello").
  simpl. tauto.
Defined.

(** ** The test script *)

Section TraceFacts.

Context {E A B : Type}.

Lemma bind_result (m : @Trace.T E A) (k : A -> @Trace.T E B) :
  snd (Trace.bind m k)
  = match snd m with
    | Returned a => snd (k a)
    | Raised e => Raised e
    end.
Proof.
  destruct m as [t [a|e]]; cbn; [now destruct (k a) | reflexivity].
Qed.

Lemma bind_trace (m : @Trace.T E A) (k : A -> @Trace.T E B) :
  fst (Trace.bind m k)
  = (fst m ++ match snd m with
              | Returned a => fst (k a)
              | Raised _ => []
              end)%list.
Proof.
  destruct m as [t [a|e]]; cbn;
    [now destruct (k a) | now rewrite app_nil_r].
Qed.

Lemma try_except_result (m : @Trace.T E A) (h : exn -> @Trace.T E A) :
  snd (Trace.try_except m h)
  = match snd m with
    | Returned a => Returned a
    | Raised e => snd (h e)
    end.
Proof.
  destruct m as [t [a|e]]; cbn; [reflexivity | now destruct (h e)].
Qed.

End TraceFacts.

Lemma collect_answer_stops (next : PyText.text) (rest : list PyText.text) :
  PyText.has PyText.arrow next = false ->
  PyText.starts_with PyText.diamond next = true ->
  forall before collecting,
    collecting = true \/ existsb (PyText.has PyText.arrow) before = true ->
    collect_answer collecting (before ++ next :: rest)
    = collect_answer collecting before.
Proof.
  intros Harrow Hdiamond.
  induction before as [|line before IH]; intros collecting Hc.
  - destruct Hc as [-> | Hc]; [|discriminate Hc].
    cbn [app collect_answer]. rewrite Harrow, Hdiamond.
    now rewrite andb_false_r.
  - cbn [app collect_answer].
    destruct (PyText.has PyText.arrow line) eqn:Hl.
    + f_equal. apply IH. now left.
    + assert (Hc' : collecting = true
                    \/ existsb (PyText.has PyText.arrow) before = true).
      { destruct Hc as [Hc | Hc]; [now left|].
        cbn [existsb] in Hc. rewrite Hl in Hc. now right. }
      destruct (collecting && PyText.truthy (PyText.strip line)
                && negb (PyText.starts_with PyText.diamond line));
        [f_equal; now apply IH|].
      destruct (PyText.starts_with PyText.diamond line && collecting);
        [reflexivity | now apply IH].
Qed.

(** X12: [query_rag] returns the answer to the first sub-question only:
    once an arrow line has been seen, the next line that begins with the
    diamond and holds no arrow ends the reading, and nothing printed from
    there on is part of the result. *)
Theorem query_rag_reads_first_answer_only (stdout next : PyText.text)
    (before rest : list PyText.text) :
  PyText.split_on PyText.line_feed (PyText.strip stdout)
  = (before ++ next :: rest)%list ->
  existsb (PyText.has PyText.arrow) before = true ->
  PyText.has PyText.arrow next = false ->
  PyText.starts_with PyText.diamond next = true ->
  query_rag_of (Completed stdout)
  = Returned
      (PyText.strip
         (PyText.join (PyText.of_string " ") (collect_answer false before))).
Proof.
  intros Hlines Hbefore Harrow Hdiamond. unfold query_rag_of.
  rewrite Hlines, (collect_answer_stops next rest Harrow Hdiamond);
    [reflexivity | now right].
Qed.

Lemma query_rag_reads_first_answer_only_witness :
  query_rag_of (Completed two_answers_stdout)
  = Returned (PyText.of_string "Admin only.").
Proof.
  apply (query_rag_reads_first_answer_only two_answers_stdout
           (PyText.diamond :: PyText.of_string " Q2: when?")
           [ PyText.diamond :: PyText.of_string " Q1: who?";
             PyText.arrow :: PyText.of_string " Admin only."; [] ]
           [ PyText.arrow :: PyText.of_string " After approval." ]);
    reflexivity.
Defined.

Lemma has_lstrip (c : N) (s : PyText.text) :
  PyText.has c s = false -> PyText.has c (PyText.lstrip s) = false.
Proof.
  induction s as [|x s IH]; intros H; [reflexivity|].
  cbn [PyText.lstrip]. destruct (PyText.is_space x); [|exact H].
  cbn [PyText.has existsb] in H. apply orb_false_iff in H as [_ H].
  now apply IH.
Qed.

Lemma has_rstrip (c : N) (s : PyText.text) :
  PyText.has c s = false -> PyText.has c (PyText.rstrip s) = false.
Proof.
  induction s as [|x s IH]; intros H; [reflexivity|].
  cbn [PyText.has existsb] in H. apply orb_false_iff in H as [Hx H].
  specialize (IH H). cbn [PyText.rstrip].
  destruct (PyText.rstrip s) as [|y r].
  - destruct (PyText.is_space x); [reflexivity|].
    cbn [PyText.has existsb]. now rewrite Hx.
  - unfold PyText.has in *. cbn [existsb] in *. now rewrite Hx, IH.
Qed.

Lemma has_split_on (c d : N) (s : PyText.text) :
  PyText.has c s = false ->
  existsb (PyText.has c) (PyText.split_on d s) = false.
Proof.
  induction s as [|x s IH]; intros H; [reflexivity|].
  cbn [PyText.has existsb] in H. apply orb_false_iff in H as [Hx H].
  specialize (IH H). cbn [PyText.split_on].
  destruct (N.eqb x d); [exact IH|].
  destruct (PyText.split_on d s) as [|h t].
  - cbn [existsb PyText.has]. now rewrite Hx.
  - cbn [existsb] in *. apply orb_false_iff in IH as [Hh Ht].
    unfold PyText.has in *. cbn [existsb]. now rewrite Hx, Hh, Ht.
Qed.

Lemma collect_answer_nothing (lines : list PyText.text) :
  existsb (PyText.has PyText.arrow) lines = false ->
  collect_answer false lines = [].
Proof.
  induction lines as [|line lines IH]; intros H; [reflexivity|].
  cbn [existsb] in H. apply orb_false_iff in H as [Hl H].
  cbn [collect_answer]. rewrite Hl. cbn [andb]. rewrite andb_false_r.
  now apply IH.
Qed.

(** X13: when the output of the subprocess holds no arrow at all, as when
    [chat] had no sub-question to answer, [query_rag] returns the empty
    text. *)
Theorem query_rag_without_arrow_is_empty (stdout : PyText.text) :
  PyText.has PyText.arrow stdout = false ->
  query_rag_of (Completed stdout) = Returned [].
Proof.
  intros H. unfold query_rag_of.
  rewrite collect_answer_nothing; [reflexivity|].
  apply has_split_on. unfold PyText.strip. now apply has_rstrip, has_lstrip.
Qed.

Lemma query_rag_without_arrow_is_empty_witness :
  query_rag_of (Completed [PyText.line_feed]) = Returned [].
Proof.
  apply (query_rag_without_arrow_is_empty [PyText.line_feed]). reflexivity.
Defined.

Lemma error_prefix (stderr : PyText.text) :
  PyText.startswith (PyText.of_string "Error: " ++ stderr)%list
    (PyText.of_string "Error:") = true.
Proof. reflexivity. Qed.

(** X14: when the response text begins with [Error:], [query_and_validate]
    prints it and returns False; it neither looks at the key nor builds or
    asks the evaluator.  A subprocess that ends with a non-zero status
    always gives such a text. *)
Theorem error_response_fails_validation (tw : TestWorld)
    (question expected_response : string) :
  (forall response_text,
     query_rag_of (chat_run tw question) = Returned response_text ->
     PyText.startswith response_text (PyText.of_string "Error:") = true ->
     query_and_validate tw question expected_response
     = ([ RunChat question; PrintQueryError response_text ], Returned false))
  /\ (forall stderr,
        chat_run tw question = CalledProcessError stderr ->
        query_and_validate tw question expected_response
        = ([ RunChat question;
             PrintQueryError (PyText.of_string "Error: " ++ stderr)%list ],
           Returned false)).
Proof.
  assert (Hgen : forall response_text,
             query_rag_of (chat_run tw question) = Returned response_text ->
             PyText.startswith response_text (PyText.of_string "Error:")
             = true ->
             query_and_validate tw question expected_response
             = ([ RunChat question; PrintQueryError response_text ],
                Returned false)).
  { intros response_text Hrun Herr.
    unfold query_and_validate, query_rag, Trace.call. rewrite Hrun.
    cbn [Trace.bind]. now rewrite Herr. }
  split; [exact Hgen|].
  intros stderr Hrun. apply Hgen; [now rewrite Hrun | apply error_prefix].
Qed.

Lemma error_response_fails_validation_witness :
  query_and_validate
    (mk_test_world
       (fun _ => CalledProcessError (PyText.of_string "RuntimeError"))
       false (Raised timeout_error) (fun _ _ => Raised timeout_error))
    "Who can add a lead?" "Admin"
  = ([ RunChat "Who can add a lead?";
       PrintQueryError (PyText.of_string "Error: RuntimeError") ],
     Returned false).
Proof.
  apply (proj2 (error_response_fails_validation
                  (mk_test_world
                     (fun _ =>
                        CalledProcessError (PyText.of_string "RuntimeError"))
                     false (Raised timeout_error)
                     (fun _ _ => Raised timeout_error))
                  "Who can add a lead?" "Admin")
           (PyText.of_string "RuntimeError")).
  reflexivity.
Defined.

(** X15: with a response text that does not begin with [Error:], the key
    set and the evaluator built, the verdict is True exactly when the
    evaluator's answer, stripped and lower-cased, holds [true]; it is False
    on every other answer and when the evaluator raises, and nothing is
    raised. *)
Theorem verdict_is_true_in_evaluation (tw : TestWorld)
    (question expected_response : string) (response_text : PyText.text) :
  query_rag_of (chat_run tw question) = Returned response_text ->
  PyText.startswith response_text (PyText.of_string "Error:") = false ->
  key_is_set tw = true ->
  evaluator_build tw = Returned tt ->
  snd (query_and_validate tw question expected_response)
  = match evaluator_reply tw expected_response response_text with
    | Returned evaluation_results_str =>
        Returned (contains (lower (strip evaluation_results_str)) "true")
    | Raised _ => Returned false
    end.
Proof.
  intros Hrun Herr Hkey Hbuild.
  unfold query_and_validate, query_rag, Trace.call. rewrite Hrun.
  cbn [Trace.bind]. rewrite Herr, Hkey, Hbuild. cbn [negb].
  destruct (evaluator_reply tw expected_response response_text)
    as [content|e]; [|reflexivity].
  cbn [Trace.bind Trace.emit Trace.try_except app].
  destruct (contains (lower (strip content)) "true"); [reflexivity|].
  destruct (contains (lower (strip content)) "false"); reflexivity.
Qed.

Lemma verdict_is_true_in_evaluation_witness :
  snd (query_and_validate
         (test_world_with (Completed two_answers_stdout)
            (Returned " FALSE. The roles differ, so it is not true. "))
         "Who can add a lead?" "Admin and Project Manager")
  = Returned true.
Proof.
  apply (verdict_is_true_in_evaluation
           (test_world_with (Completed two_answers_stdout)
              (Returned " FALSE. The roles differ, so it is not true. "))
           "Who can add a lead?" "Admin and Project Manager"
           (PyText.of_string "Admin only."));
    reflexivity.
Defined.

(** *** The test runner *)

Lemma test_loop_result (total : nat)
    (tests : list (string * Trace.T (E := test_event) unit)) :
  forall i passed failed,
    snd (test_loop total i tests passed failed)
    = Returned (passed + count_passed tests,
                failed + (List.length tests - count_passed tests)).
Proof.
  unfold count_passed.
  induction tests as [|[name test_func] rest IH]; intros i passed failed.
  - cbn. now rewrite !Nat.add_0_r.
  - pose proof (filter_length_le (fun test => returns (snd test)) rest) as Hle.
    cbn [test_loop]. rewrite bind_result. cbn [Trace.emit snd].
    rewrite bind_result, try_except_result, bind_result.
    destruct test_func as [t [[]|e]]; cbn [filter snd returns];
      rewrite bind_result; cbn [Trace.emit Trace.ret snd];
      rewrite IH; cbn [List.length]; f_equal; f_equal; lia.
Qed.

Lemma count_passed_le
    (tests : list (string * Trace.T (E := test_event) unit)) :
  count_passed tests <= List.length tests.
Proof. apply filter_length_le. Qed.

Lemma all_passed_iff
    (tests : list (string * Trace.T (E := test_event) unit)) :
  (List.length tests - count_passed tests =? 0)%nat
  = forallb (fun test => returns (snd test)) tests.
Proof.
  unfold count_passed.
  induction tests as [|test rest IH]; [reflexivity|].
  cbn [filter forallb List.length].
  pose proof (filter_length_le (fun test => returns (snd test)) rest) as Hle.
  destruct (returns (snd test)).
  - cbn [List.length andb]. rewrite <- IH. reflexivity.
  - cbn [andb]. apply Nat.eqb_neq. lia.
Qed.

Lemma run_all_tests_tally_gen
    (tests : list (string * Trace.T (E := test_event) unit)) :
  tests <> [] ->
  snd (run_all_tests tests)
  = Returned (forallb (fun test => returns (snd test)) tests)
  /\ fst (run_all_tests tests)
     = ([ PrintSuiteStart (List.length tests); PrintRule ]
        ++ fst (test_loop (List.length tests) 1 tests 0 0)
        ++ summary (List.length tests) (count_passed tests))%list.
Proof.
  intros Hne.
  set (total := List.length tests). set (passed := count_passed tests).
  pose proof (test_loop_result total tests 1 0 0) as Hloop.
  cbn [Nat.add] in Hloop. fold passed total in Hloop.
  assert (Htotal : (total =? 0)%nat = false).
  { apply Nat.eqb_neq. subst total. destruct tests; [congruence | simpl; lia]. }
  unfold run_all_tests. fold total.
  destruct (test_loop total 1 tests 0 0) as [body result].
  cbn [snd] in Hloop. subst result.
  cbn [Trace.bind Trace.emit Trace.ret app fst snd]. rewrite Htotal.
  unfold summary. rewrite <- (all_passed_iff tests). fold passed total.
  destruct (total - passed =? 0)%nat; cbn [Trace.bind Trace.emit app fst snd];
    (split; [reflexivity|]); rewrite ?app_nil_r; reflexivity.
Qed.

(** X16: over a list of tests that is not empty, [run_all_tests] runs them
    all, a raising test included; it reports as passed the number of tests
    that returned, as failed the others, so that the two add up to the
    total; and it returns True exactly when every test returned. *)
Theorem run_all_tests_tally
    (tests : list (string * Trace.T (E := test_event) unit)) :
  tests <> [] ->
  let total := List.length tests in
  let passed := count_passed tests in
  fst (run_all_tests tests)
  = ([ PrintSuiteStart total; PrintRule ]
     ++ fst (test_loop total 1 tests 0 0)
     ++ summary total passed)%list
  /\ snd (run_all_tests tests)
     = Returned (forallb (fun test => returns (snd test)) tests)
  /\ passed + (total - passed) = total.
Proof.
  intros Hne total passed.
  destruct (run_all_tests_tally_gen tests Hne) as [Hres Htrace].
  pose proof (count_passed_le tests) as Hle. fold passed total in Hle.
  split; [exact Htrace|]. split; [exact Hres | lia].
Qed.

Lemma run_all_tests_tally_witness :
  snd (run_all_tests
         (suite_of grading_world
            [ ("test_roles", ("Who can add a lead?", "Admin"));
              ("test_steps", ("How do you add a lead?", "Press Add Lead")) ]))
  = Returned false.
Proof.
  destruct (run_all_tests_tally
              (suite_of grading_world
                 [ ("test_roles", ("Who can add a lead?", "Admin"));
                   ("test_steps",
                    ("How do you add a lead?", "Press Add Lead")) ]))
    as (_ & H & _); [discriminate | exact H].
Defined.

Lemma test_case_returns (tw : TestWorld) (question expected_response : string) :
  returns (test_case tw question expected_response)
  = verdict tw question expected_response.
Proof.
  unfold returns, verdict, test_case. rewrite bind_result.
  destruct (snd (query_and_validate tw question expected_response))
    as [[|]|e]; reflexivity.
Qed.

Lemma suite_forallb (tw : TestWorld)
    (specs : list (string * (string * string))) :
  forallb (fun test => returns (snd test)) (suite_of tw specs)
  = forallb (fun spec => verdict tw (fst (snd spec)) (snd (snd spec))) specs.
Proof.
  unfold suite_of. induction specs as [|spec rest IH]; [reflexivity|].
  cbn [map forallb snd]. now rewrite test_case_returns, IH.
Qed.

Lemma suite_count (tw : TestWorld)
    (specs : list (string * (string * string))) :
  count_passed (suite_of tw specs)
  = List.length
      (filter (fun spec => verdict tw (fst (snd spec)) (snd (snd spec)))
         specs).
Proof.
  unfold count_passed, suite_of.
  induction specs as [|spec rest IH]; [reflexivity|].
  cbn [map filter snd]. rewrite test_case_returns.
  destruct (verdict tw (fst (snd spec)) (snd (snd spec)));
    cbn [List.length]; now rewrite IH.
Qed.

(** X17: for tests of the script's shape, an assertion on
    [query_and_validate], the run returns True exactly when the verdict was
    True for every test; a False verdict and an exception raised inside
    [query_and_validate] both count as one failed test and do not stop the
    run. *)
Theorem suite_passes_iff_all_verdicts_true (tw : TestWorld)
    (specs : list (string * (string * string))) :
  specs <> [] ->
  snd (run_all_tests (suite_of tw specs))
  = Returned
      (forallb (fun spec => verdict tw (fst (snd spec)) (snd (snd spec)))
         specs)
  /\ count_passed (suite_of tw specs)
     = List.length
         (filter (fun spec => verdict tw (fst (snd spec)) (snd (snd spec)))
            specs).
Proof.
  intros Hne.
  assert (Hne' : suite_of tw specs <> []).
  { destruct specs; [congruence | discriminate]. }
  destruct (run_all_tests_tally_gen (suite_of tw specs) Hne') as [Hres _].
  rewrite Hres, suite_forallb. split; [reflexivity | apply suite_count].
Qed.

Lemma suite_passes_iff_all_verdicts_true_witness :
  snd (run_all_tests
         (suite_of grading_world
            [ ("test_roles", ("Who can add a lead?", "Admin")) ]))
  = Returned true.
Proof.
  destruct (suite_passes_iff_all_verdicts_true grading_world
              [ ("test_roles", ("Who can add a lead?", "Admin")) ])
    as (H & _); [discriminate | exact H].
Defined.

(** ** The command line and the ingestion *)

(** X18: without the key in the environment the program raises the key error
    whatever the subcommand and whatever the state of the store: no document
    is loaded, no chain is built, and the error of a missing store is not
    reached.  With the key, [chat] on a missing store raises the store
    error. *)
Theorem key_is_checked_first {Doc : Type} (iw : IngestWorld Doc) (w : World) :
  (forall cmd, main_block false iw w cmd = ([], Raised no_key_error))
  /\ (forall question,
        persist_dir_exists w = false ->
        main_block true iw w (Chat question) = ([], Raised no_store_error)).
Proof.
  split; [reflexivity|].
  intros question Hdir. unfold main_block, Trace.lift, chat.
  now rewrite Hdir.
Qed.

Lemma key_is_checked_first_witness :
  main_block true (mk_ingest_world string (Returned []) Returned
                     (fun _ => Returned tt))
    world_without_store (Chat "Who can add a lead?")
  = ([], Raised no_store_error).
Proof.
  apply (proj2 (key_is_checked_first
                  (mk_ingest_world string (Returned []) Returned
                     (fun _ => Returned tt))
                  world_without_store)).
  reflexivity.
Defined.

(** X19: [ingest_docs] reports a number of chunks only when the loader, the
    splitter and the store have all returned, and the number is that of the
    chunks the splitter produced and the store was given. *)
Theorem ingest_reports_stored_chunks {Doc : Type} (iw : IngestWorld Doc)
    (n : nat) :
  In (PrintIngested n) (fst (ingest_docs iw)) ->
  exists raw_docs docs,
    load_reply iw = Returned raw_docs
    /\ split_reply iw raw_docs = Returned docs
    /\ store_reply iw docs = Returned tt
    /\ n = List.length docs
    /\ ingest_docs iw
       = ([ LoadDocs; SplitDocs; StoreChunks; PrintIngested n ], Returned tt).
Proof.
  unfold ingest_docs, Trace.call, Trace.emit. intros H.
  destruct (load_reply iw) as [raw_docs|e] eqn:Hload; cbn [Trace.bind] in *.
  - destruct (split_reply iw raw_docs) as [docs|e] eqn:Hsplit;
      cbn [Trace.bind app fst In] in *.
    + destruct (store_reply iw docs) as [[]|e] eqn:Hstore;
        cbn [Trace.bind app fst In] in *.
      * destruct H as [H | [H | [H | [H | []]]]]; try discriminate H.
        injection H as <-. now exists raw_docs, docs.
      * destruct H as [H | [H | [H | []]]]; discriminate H.
    + destruct H as [H | [H | []]]; discriminate H.
  - cbn [fst In] in H. destruct H as [H | []]; discriminate H.
Qed.

Lemma ingest_reports_stored_chunks_witness :
  exists raw_docs docs,
    Returned ["Leads."; "Jobs."] = Returned raw_docs
    /\ Returned (raw_docs ++ raw_docs)%list = Returned docs
    /\ Returned tt = Returned tt
    /\ 4 = List.length docs
    /\ ingest_docs
         (mk_ingest_world string (Returned ["Leads."; "Jobs."])
            (fun raw => Returned (raw ++ raw)%list) (fun _ => Returned tt))
       = ([ LoadDocs; SplitDocs; StoreChunks; PrintIngested 4 ], Returned tt).
Proof.
  apply (ingest_reports_stored_chunks
           (mk_ingest_world string (Returned ["Leads."; "Jobs."])
              (fun raw => Returned (raw ++ raw)%list) (fun _ => Returned tt))
           4).
  simpl. tauto.
Defined.

(** ** From [chat] to [query_rag] *)

Lemma of_string_app (a b : string) :
  PyText.of_string (a ++ b)
  = (PyText.of_string a ++ PyText.of_string b)%list.
Proof.
  unfold PyText.of_string.
  induction a as [|c a IH]; [reflexivity|].
  cbn [append list_ascii_of_string map app]. now rewrite IH.
Qed.

Lemma of_string_cons (c : ascii) (s : string) :
  PyText.of_string (String c s) = N_of_ascii c :: PyText.of_string s.
Proof. reflexivity. Qed.

(** The two readings of whitespace agree on U+0000..U+00FF. *)
Lemma is_space_agree (c : ascii) :
  PyText.is_space (N_of_ascii c) = is_space c.
Proof. destruct c as [[|] [|] [|] [|] [|] [|] [|] [|]]; reflexivity. Qed.

Lemma latin_not_arrow (c : ascii) : N.eqb PyText.arrow (N_of_ascii c) = false.
Proof. destruct c as [[|] [|] [|] [|] [|] [|] [|] [|]]; reflexivity. Qed.

Lemma no_arrow_of_string (s : string) :
  PyText.has PyText.arrow (PyText.of_string s) = false.
Proof.
  induction s as [|c s IH]; [reflexivity|].
  rewrite of_string_cons. unfold PyText.has in *. cbn [existsb].
  now rewrite latin_not_arrow, IH.
Qed.

Lemma line_feed_of_ascii (c : ascii) :
  N.eqb PyText.line_feed (N_of_ascii c) = Ascii.eqb c (ascii_of_nat 10).
Proof. destruct c as [[|] [|] [|] [|] [|] [|] [|] [|]]; reflexivity. Qed.

Lemma no_line_feed_of_string (s : string) :
  contains s nl = false ->
  PyText.has PyText.line_feed (PyText.of_string s) = false.
Proof.
  induction s as [|c s IH]; intros H; [reflexivity|].
  apply contains_false_cons in H as [Hs Hc].
  unfold nl in Hs. rewrite startswith_cons, startswith_nil, andb_true_r in Hs.
  rewrite of_string_cons. unfold PyText.has in *. cbn [existsb].
  now rewrite line_feed_of_ascii, Hs, (IH Hc).
Qed.

Lemma text_lstrip_of_string (s : string) :
  PyText.lstrip (PyText.of_string s) = PyText.of_string (lstrip s).
Proof.
  induction s as [|c s IH]; [reflexivity|].
  rewrite of_string_cons. cbn [PyText.lstrip lstrip].
  rewrite is_space_agree. now destruct (is_space c).
Qed.

Lemma text_rstrip_of_string (s : string) :
  PyText.rstrip (PyText.of_string s) = PyText.of_string (rstrip s).
Proof.
  induction s as [|c s IH]; [reflexivity|].
  rewrite of_string_cons, rstrip_cons. cbn [PyText.rstrip].
  rewrite IH, is_space_agree.
  destruct (rstrip s); [now destruct (is_space c) | reflexivity].
Qed.

(** Stripping commutes with the passage to code points. *)
Lemma text_strip_of_string (s : string) :
  PyText.strip (PyText.of_string s) = PyText.of_string (strip s).
Proof.
  unfold PyText.strip, strip.
  now rewrite text_lstrip_of_string, text_rstrip_of_string.
Qed.

Lemma text_rstrip_cons (c : N) (s : PyText.text) :
  PyText.rstrip (c :: s)
  = match PyText.rstrip s with
    | [] => if PyText.is_space c then [] else [c]
    | r => c :: r
    end.
Proof. reflexivity. Qed.

(** Text before a part that does not strip to nothing is kept. *)
Lemma text_rstrip_app (x y : PyText.text) :
  PyText.rstrip y <> [] ->
  PyText.rstrip (x ++ y)%list = (x ++ PyText.rstrip y)%list.
Proof.
  intros Hy. induction x as [|c x IH]; [reflexivity|].
  cbn [app]. rewrite text_rstrip_cons, IH.
  destruct (x ++ PyText.rstrip y)%list eqn:E; [|reflexivity].
  apply app_eq_nil in E as [_ E]. congruence.
Qed.

Lemma text_rstrip_space_end (c : N) :
  PyText.is_space c = true -> PyText.rstrip [c] = [].
Proof. intros H. cbn. now rewrite H. Qed.

Lemma text_rstrip_app_space (y : PyText.text) (c : N) :
  PyText.is_space c = true ->
  PyText.rstrip (y ++ [c])%list = PyText.rstrip y.
Proof.
  intros Hc. induction y as [|d y IH]; [now apply text_rstrip_space_end|].
  cbn [app]. now rewrite !text_rstrip_cons, IH.
Qed.

Lemma split_on_absent (c : N) (s : PyText.text) :
  PyText.has c s = false -> PyText.split_on c s = [s].
Proof.
  induction s as [|x s IH]; intros H; [reflexivity|].
  unfold PyText.has in H. cbn [existsb] in H.
  apply orb_false_iff in H as [Hx H].
  cbn [PyText.split_on]. rewrite N.eqb_sym, Hx. now rewrite (IH H).
Qed.

Lemma split_on_app (c : N) (u v : PyText.text) :
  PyText.has c u = false ->
  PyText.split_on c (u ++ c :: v)%list = u :: PyText.split_on c v.
Proof.
  induction u as [|x u IH]; intros H.
  - cbn [app PyText.split_on]. now rewrite N.eqb_refl.
  - unfold PyText.has in H. cbn [existsb] in H.
    apply orb_false_iff in H as [Hx H].
    cbn [app PyText.split_on]. rewrite N.eqb_sym, Hx. now rewrite (IH H).
Qed.

Lemma has_app (c : N) (u v : PyText.text) :
  PyText.has c (u ++ v)%list = PyText.has c u || PyText.has c v.
Proof. unfold PyText.has. apply existsb_app. Qed.

Lemma enhance_solid (raw : string) :
  is_no_answer raw = false -> solid (enhance_response_authority raw).
Proof.
  intros Hno. unfold enhance_response_authority. rewrite Hno.
  destruct (truthy (rewrite_body raw)) eqn:T; cbn [negb];
    [|split; reflexivity].
  now apply add_opener_solid, clean_lines_solid.
Qed.

Lemma text_lstrip_line_feed (s : PyText.text) :
  PyText.lstrip (PyText.line_feed :: s) = PyText.lstrip s.
Proof. reflexivity. Qed.

Lemma text_lstrip_solid (c : N) (s : PyText.text) :
  PyText.is_space c = false -> PyText.lstrip (c :: s) = c :: s.
Proof. intros H. cbn [PyText.lstrip]. now rewrite H. Qed.

(** Stripping a text that is framed by two line feeds and begins and ends
    with something else. *)
Lemma text_strip_framed (c : N) (u a : PyText.text) :
  PyText.is_space c = false ->
  PyText.rstrip a = a -> a <> [] ->
  PyText.strip (PyText.line_feed :: (c :: u ++ a) ++ [PyText.line_feed])%list
  = (c :: u ++ a)%list.
Proof.
  intros Hc Ha Hne. unfold PyText.strip.
  rewrite text_lstrip_line_feed.
  change ((c :: u ++ a) ++ [PyText.line_feed])%list
    with (c :: (u ++ a) ++ [PyText.line_feed])%list.
  rewrite (text_lstrip_solid c _ Hc).
  change (c :: (u ++ a) ++ [PyText.line_feed])%list
    with ((c :: u ++ a) ++ [PyText.line_feed])%list.
  rewrite (text_rstrip_app_space _ PyText.line_feed eq_refl).
  change (c :: u ++ a)%list with ((c :: u) ++ a)%list.
  rewrite text_rstrip_app by (rewrite Ha; exact Hne).
  now rewrite Ha.
Qed.

Lemma split_on_nonempty (c : N) (s : PyText.text) :
  PyText.split_on c s <> [].
Proof.
  induction s as [|x s IH]; [discriminate|]. cbn [PyText.split_on].
  destruct (N.eqb x c); [discriminate|].
  destruct (PyText.split_on c s); discriminate.
Qed.

(** The lines of two texts put together with the separator are the lines of
    the one followed by the lines of the other. *)
Lemma split_on_join (c : N) (u v : PyText.text) :
  PyText.split_on c (u ++ c :: v)%list
  = (PyText.split_on c u ++ PyText.split_on c v)%list.
Proof.
  induction u as [|x u IH].
  - cbn [app PyText.split_on]. now rewrite N.eqb_refl.
  - cbn [app PyText.split_on]. rewrite IH.
    destruct (N.eqb x c); [reflexivity|].
    pose proof (split_on_nonempty c u) as Hne.
    destruct (PyText.split_on c u); [congruence | reflexivity].
Qed.

Lemma collect_answer_skip (pre rest : list PyText.text) :
  existsb (PyText.has PyText.arrow) pre = false ->
  collect_answer false (pre ++ rest) = collect_answer false rest.
Proof.
  induction pre as [|line pre IH]; intros H; [reflexivity|].
  cbn [existsb] in H. apply orb_false_iff in H as [Hl H].
  cbn [app collect_answer]. rewrite Hl. cbn [andb].
  rewrite andb_false_r. now apply IH.
Qed.

Section OneAnswer.

Variables (i : nat) (q answer : string).

Hypothesis question_one_line : contains (decimal i ++ ": " ++ q) nl = false.
Hypothesis answer_one_line : contains answer nl = false.
Hypothesis answer_solid : solid answer.

Local Abbreviation Q := (question_text i q).
Local Abbreviation A := (PyText.of_string answer).
Local Abbreviation body := (printed_body i q answer).

Lemma printed_pair :
  stdout_of [ PrintQuestion i q; AskChain q; PrintAnswer answer ]
  = (PyText.line_feed :: body ++ [PyText.line_feed])%list.
Proof.
  unfold stdout_of, printed_body, question_text. cbn [flat_map printed app].
  change (" " ++ answer) with (String " " answer).
  rewrite of_string_cons.
  rewrite app_nil_r, <- !app_assoc. reflexivity.
Qed.

Lemma answer_text_solid :
  PyText.lstrip A = A /\ PyText.rstrip A = A /\ A <> [].
Proof.
  destruct answer_solid as [Hs He]. split; [|split].
  - now rewrite text_lstrip_of_string, (lstrip_solid _ Hs).
  - now rewrite text_rstrip_of_string, (rstrip_solid _ He).
  - destruct answer; [discriminate Hs | discriminate].
Qed.

Lemma body_lines :
  PyText.split_on PyText.line_feed body
  = [ PyText.diamond :: Q; PyText.arrow :: 32%N :: A ].
Proof.
  assert (HQ : PyText.has PyText.line_feed (PyText.diamond :: Q) = false).
  { unfold question_text.
    change (PyText.has PyText.line_feed (PyText.diamond :: ?x))
      with (PyText.has PyText.line_feed x).
    apply no_line_feed_of_string.
    change (" Q" ++ decimal i ++ ": " ++ q)
      with (String " " (String "Q" (decimal i ++ ": " ++ q))).
    rewrite !contains_cons, question_one_line. reflexivity. }
  assert (HA : PyText.has PyText.line_feed (PyText.arrow :: 32%N :: A)
               = false)
    by (apply (no_line_feed_of_string answer answer_one_line)).
  unfold printed_body. rewrite <- app_assoc. cbn [app].
  change (PyText.diamond
          :: (Q ++ PyText.line_feed :: PyText.arrow :: 32%N :: A))%list
    with ((PyText.diamond :: Q)
          ++ PyText.line_feed :: PyText.arrow :: 32%N :: A)%list.
  now rewrite (split_on_app _ _ _ HQ), (split_on_absent _ _ HA).
Qed.

Lemma body_read :
  collect_answer false [ PyText.diamond :: Q; PyText.arrow :: 32%N :: A ]
  = [A].
Proof.
  destruct answer_text_solid as (HAl & HAr & _).
  assert (Harrow : PyText.has PyText.arrow (PyText.diamond :: Q) = false)
    by exact (no_arrow_of_string _).
  cbn [collect_answer]. rewrite Harrow.
  change (PyText.has PyText.arrow (PyText.arrow :: 32%N :: A)) with true.
  change (PyText.after_first PyText.arrow (PyText.arrow :: 32%N :: A))
    with (32%N :: A).
  cbn [andb]. rewrite andb_false_r.
  unfold PyText.strip.
  change (PyText.lstrip (32%N :: A)) with (PyText.lstrip A).
  now rewrite HAl, HAr.
Qed.

Lemma body_rstrip (x : PyText.text) :
  PyText.rstrip (x ++ body ++ [PyText.line_feed])%list = (x ++ body)%list.
Proof.
  destruct answer_text_solid as (_ & HAr & HAne).
  rewrite app_assoc, (text_rstrip_app_space _ PyText.line_feed eq_refl).
  unfold printed_body.
  change (PyText.diamond
          :: (Q ++ [PyText.line_feed; PyText.arrow; 32%N]) ++ A)%list
    with ((PyText.diamond :: Q ++ [PyText.line_feed; PyText.arrow; 32%N])
          ++ A)%list.
  rewrite app_assoc, text_rstrip_app by (rewrite HAr; exact HAne).
  now rewrite HAr.
Qed.

(** What [query_rag] makes of the output for one sub-question whose answer
    is one line without surrounding whitespace. *)
Lemma query_rag_one_answer :
  query_rag_of
    (Completed (stdout_of [ PrintQuestion i q; AskChain q;
                            PrintAnswer answer ]))
  = Returned A.
Proof.
  destruct answer_text_solid as (HAl & HAr & _).
  unfold query_rag_of. rewrite printed_pair.
  unfold PyText.strip. rewrite text_lstrip_line_feed.
  assert (Hl : PyText.lstrip (body ++ [PyText.line_feed])%list
               = (body ++ [PyText.line_feed])%list) by reflexivity.
  rewrite Hl. pose proof (body_rstrip []) as Hr. cbn [app] in Hr.
  rewrite Hr, body_lines, body_read. cbn [PyText.join].
  now rewrite HAl, HAr.
Qed.

(** The same after a first line of plain text, as the line that reports a
    failed split. *)
Lemma query_rag_one_answer_after (c : ascii) (first : string) :
  is_space c = false ->
  query_rag_of
    (Completed
       (PyText.of_string (String c first) ++ [PyText.line_feed]
        ++ stdout_of [ PrintQuestion i q; AskChain q; PrintAnswer answer ])
       %list)
  = Returned A.
Proof.
  intros Hc. destruct answer_text_solid as (HAl & HAr & _).
  unfold query_rag_of. rewrite printed_pair.
  set (F := PyText.of_string (String c first)).
  assert (Hl : PyText.lstrip
                 (F ++ [PyText.line_feed]
                  ++ PyText.line_feed :: body ++ [PyText.line_feed])%list
               = (F ++ [PyText.line_feed]
                  ++ PyText.line_feed :: body ++ [PyText.line_feed])%list).
  { unfold F. rewrite of_string_cons. cbn [app].
    apply text_lstrip_solid. now rewrite is_space_agree. }
  unfold PyText.strip. rewrite Hl.
  replace (F ++ [PyText.line_feed]
           ++ PyText.line_feed :: body ++ [PyText.line_feed])%list
    with ((F ++ [PyText.line_feed; PyText.line_feed])
          ++ body ++ [PyText.line_feed])%list
    by (now rewrite <- app_assoc).
  rewrite body_rstrip.
  replace ((F ++ [PyText.line_feed; PyText.line_feed]) ++ body)%list
    with (F ++ PyText.line_feed :: [] ++ PyText.line_feed :: body)%list
    by (now rewrite <- app_assoc).
  rewrite !split_on_join, body_lines.
  rewrite collect_answer_skip
    by (apply has_split_on; exact (no_arrow_of_string _)).
  change (PyText.split_on PyText.line_feed []) with [@nil N].
  cbn [app]. change (collect_answer false ([] :: ?l))
    with (collect_answer false l).
  rewrite body_read. cbn [PyText.join]. now rewrite HAl, HAr.
Qed.

End OneAnswer.

Lemma numbered_one_line (q : string) :
  contains q nl = false -> contains (decimal 1 ++ ": " ++ q) nl = false.
Proof.
  intros H.
  change (decimal 1 ++ ": " ++ q) with (String "1" (String ":" (String " " q))).
  rewrite !contains_cons, H. reflexivity.
Qed.

Lemma answer_loop_one (w : World) (q raw : string) :
  chain_reply w 1 q = Returned raw ->
  answer_loop w 1 [q]
  = ([ PrintQuestion 1 q; AskChain q;
       PrintAnswer (enhance_response_authority raw) ],
     Returned tt).
Proof. intros H. rewrite answer_loop_cons, H. reflexivity. Qed.

Lemma code_point_eqb (a c : ascii) :
  N.eqb (N_of_ascii a) (N_of_ascii c) = Ascii.eqb c a.
Proof.
  destruct (Ascii.eqb_spec c a) as [->|Hne]; [apply N.eqb_refl|].
  apply N.eqb_neq. intros E. apply Hne.
  rewrite <- (ascii_N_embedding c), <- (ascii_N_embedding a). now rewrite E.
Qed.

Lemma no_char_of_string (a : ascii) (s : string) :
  contains s (String a EmptyString) = false ->
  PyText.has (N_of_ascii a) (PyText.of_string s) = false.
Proof.
  induction s as [|c s IH]; intros H; [reflexivity|].
  apply contains_false_cons in H as [Hs Hc].
  rewrite startswith_cons, startswith_nil, andb_true_r in Hs.
  rewrite of_string_cons. unfold PyText.has in *. cbn [existsb].
  now rewrite code_point_eqb, Hs, (IH Hc).
Qed.

Lemma no_cr_of_string (s : string) :
  contains s cr = false -> PyText.has 13%N (PyText.of_string s) = false.
Proof. apply (no_char_of_string (ascii_of_nat 13)). Qed.

(** Without a carriage return nothing is translated. *)
Lemma universal_newlines_plain (s : PyText.text) :
  PyText.has 13%N s = false -> universal_newlines s = s.
Proof.
  induction s as [|c s IH]; intros H; [reflexivity|].
  unfold PyText.has in H. cbn [existsb] in H.
  apply orb_false_iff in H as [Hc H].
  cbn [universal_newlines]. rewrite N.eqb_sym, Hc. now rewrite (IH H).
Qed.

Lemma printed_pair_no_cr (q answer : string) :
  contains q cr = false -> contains answer cr = false ->
  PyText.has 13%N
    (stdout_of [ PrintQuestion 1 q; AskChain q; PrintAnswer answer ]) = false.
Proof.
  intros Hq Ha.
  assert (H1 : PyText.has 13%N
                 (PyText.of_string (" Q" ++ decimal 1 ++ ": " ++ q)) = false).
  { apply no_cr_of_string.
    change (" Q" ++ decimal 1 ++ ": " ++ q)
      with (String " " (String "Q" (String "1" (String ":" (String " " q))))).
    rewrite !contains_cons, Hq. reflexivity. }
  assert (H2 : PyText.has 13%N (PyText.of_string (" " ++ answer)) = false).
  { apply no_cr_of_string. change (" " ++ answer) with (String " " answer).
    rewrite contains_cons, Ha. reflexivity. }
  unfold stdout_of. cbn [flat_map printed].
  rewrite !has_app, H1, H2. reflexivity.
Qed.

(** X20: let the question, the answer and the text of a split failure be
    made of code points up to U+00FF, so without the arrow and the diamond,
    and hold no carriage return; let [chat] have one sub-question without a
    line feed, because the splitter returned one or because it raised and
    the whole question is taken; let the answer be one line that did not
    take the early return.  Then [chat] returns, and [query_rag], reading
    what [chat] printed as the subprocess hands it over, returns exactly
    the rewritten answer. *)
Theorem harness_reads_chat_answer (w : World) (question q raw : string) :
  persist_dir_exists w = true ->
  build_chain_reply w = Returned tt ->
  result_of (split_question_into_parts w question) = Returned [q]
  \/ (exists e,
        result_of (split_question_into_parts w question) = Raised e
        /\ contains (exn_text e) cr = false)
     /\ q = question ->
  chain_reply w 1 q = Returned raw ->
  is_no_answer raw = false ->
  contains q nl = false ->
  contains q cr = false ->
  contains (enhance_response_authority raw) nl = false ->
  contains (enhance_response_authority raw) cr = false ->
  result_of (chat w question) = Returned tt
  /\ query_rag_of (Completed (captured_stdout (trace_of (chat w question))))
     = Returned (PyText.of_string (enhance_response_authority raw)).
Proof.
  intros Hdir Hbuild Hsplit Hchain Hno Hq Hqcr Ha Hacr.
  pose proof (numbered_one_line q Hq) as Hnum.
  pose proof (enhance_solid raw Hno) as Hsolid.
  pose proof (printed_pair_no_cr q _ Hqcr Hacr) as Hpair.
  unfold captured_stdout.
  destruct (decomposer_reply w question) as [result|e] eqn:Hreply.
  - rewrite (split_returned _ _ _ Hreply) in Hsplit.
    destruct Hsplit as [Hsplit | [[e [He _]] _]]; [|discriminate He].
    injection Hsplit as Hparts.
    rewrite (chat_after_split _ _ _ Hdir Hbuild Hreply), Hparts.
    rewrite (answer_loop_one w q raw Hchain).
    split; [reflexivity|].
    cbn [trace_of result_of fst snd app].
    change (stdout_of (BuildChain :: AskDecomposer question :: ?t))
      with (stdout_of t).
    rewrite (universal_newlines_plain _ Hpair).
    now apply query_rag_one_answer.
  - rewrite (split_raised _ _ _ Hreply) in Hsplit.
    destruct Hsplit as [Hsplit | [[e' [He Hecr]] ->]]; [discriminate Hsplit|].
    injection He as <-.
    rewrite (chat_after_failure _ _ _ Hdir Hbuild Hreply).
    rewrite (answer_loop_one w question raw Hchain).
    split; [reflexivity|].
    cbn [trace_of result_of fst snd app].
    change (stdout_of (BuildChain :: AskDecomposer question
                       :: PrintSplitFailure e :: ?t))
      with (printed (PrintSplitFailure e) ++ stdout_of t)%list.
    rewrite universal_newlines_plain.
    + cbn [printed]. rewrite <- app_assoc.
      change ("[!] Failed to split question. Falling back to original: "
              ++ exn_text e)
        with (String "["
                ("!] Failed to split question. Falling back to original: "
                 ++ exn_text e)).
      now apply query_rag_one_answer_after.
    + rewrite has_app, Hpair, orb_false_r. cbn [printed].
      rewrite has_app, orb_false_r, of_string_app, has_app.
      now rewrite (no_cr_of_string _ Hecr), orb_false_r.
Qed.

Lemma harness_reads_chat_answer_witness :
  result_of (chat (world_with (Raised timeout_error)) "Who can add a lead?")
  = Returned tt
  /\ query_rag_of
       (Completed
          (captured_stdout
             (trace_of
                (chat (world_with (Raised timeout_error))
                   "Who can add a lead?"))))
     = Returned
         (PyText.of_string "To do this: Click Save to Who can add a lead?").
Proof.
  apply (harness_reads_chat_answer (world_with (Raised timeout_error))
           "Who can add a lead?" "Who can add a lead?"
           "Click Save to Who can add a lead?").
  - reflexivity.
  - reflexivity.
  - right. split; [|reflexivity].
    exists timeout_error. split; reflexivity.
  - reflexivity.
  - reflexivity.
  - reflexivity.
  - reflexivity.
  - reflexivity.
  - reflexivity.
Defined.

(** With a carriage return in the answer the subprocess hands over a line
    feed in its place, and the text read back is not the answer. *)
Example carriage_return_is_not_read_back :
  query_rag_of
    (Completed
       (captured_stdout
          [ PrintQuestion 1 "How?"; AskChain "How?";
            PrintAnswer ("You press Submit," ++ cr ++ "then close.") ]))
  = Returned (PyText.of_string "You press Submit, then close.").
Proof. reflexivity. Qed.

(** An arrow in the question, which no text of code points up to U+00FF
    holds, is read as the start of the answer: what follows it on the
    question line comes first in the text read back. *)
Example arrow_in_question_is_read_as_answer :
  query_rag_of
    (Completed
       (universal_newlines
          ([PyText.line_feed; PyText.diamond]
           ++ PyText.of_string " Q1: from lead " ++ [PyText.arrow]
           ++ PyText.of_string " job?" ++ [PyText.line_feed; PyText.arrow]
           ++ PyText.of_string " You can." ++ [PyText.line_feed])%list))
  = Returned (PyText.of_string "job? You can.").
Proof. reflexivity. Qed.

(** ** The literal split, fragment by fragment *)

Lemma contains_app_l (a b t : string) :
  contains a t = true -> contains (a ++ b) t = true.
Proof.
  intros H. apply contains_spec in H as (x & y & ->).
  apply contains_spec. exists x, (y ++ b). now rewrite !app_assoc_str.
Qed.

Lemma contains_trans (s t u : string) :
  contains s t = true -> contains t u = true -> contains s u = true.
Proof.
  intros Hs Ht. apply contains_spec in Hs as (a & b & ->).
  apply contains_spec in Ht as (c & d & ->).
  apply contains_spec. exists (a ++ c), (d ++ b).
  now rewrite !app_assoc_str.
Qed.

(** Where the old text occurs, the result holds the new text. *)
Lemma replace_present (old new s : string) :
  truthy old = true -> contains s old = true ->
  contains (replace old new s) new = true.
Proof.
  intros Hold. unfold replace, replace_count.
  destruct old as [|d old]; [discriminate|].
  induction s as [|c s IH]; intros H; [discriminate H|].
  cbn [replace_scan exhausted negb andb].
  destruct (startswith (String c s) (String d old)) eqn:E.
  - apply contains_app_l, contains_spec.
    exists EmptyString, EmptyString. now rewrite app_nil_r_str.
  - rewrite contains_cons, E in H. cbn [orb] in H.
    rewrite contains_cons, (IH H). apply orb_true_r.
Qed.

Lemma base_context_cases (first : string) :
  In (base_context_of first)
    [ "tiling "; "repair "; "excavation "; EmptyString ].
Proof.
  unfold base_context_of.
  destruct (contains (lower first) "tiling"); [in_list|].
  destruct (contains (lower first) "repair"); [in_list|].
  destruct (contains (lower first) "excavation"); in_list.
Qed.

(** What the body of the loop makes of a fragment after the first: the
    fragment stripped, or a text that names the domain where the fragment
    did not. *)
Lemma repair_part_cases (first part : string) :
  let kw := strip (base_context_of first) in
  repair_part (base_context_of first) part = strip part
  \/ (truthy kw = true
      /\ contains (lower (strip part)) kw = false
      /\ contains (repair_part (base_context_of first) part) kw = true).
Proof.
  intros kw. unfold repair_part. fold kw.
  destruct (truthy (base_context_of first)
            && negb (contains (lower (strip part)) kw)) eqn:G; [|now left].
  apply andb_true_iff in G as [Gt Gk]. apply negb_true_iff in Gk.
  assert (Hkw : truthy kw = true
                /\ contains ("how to " ++ base_context_of first) kw = true
                /\ contains ("convert " ++ base_context_of first ++ "lead to")
                     kw = true
                /\ contains ("the " ++ base_context_of first ++ "lead steps")
                     kw = true).
  { subst kw.
    destruct (base_context_cases first) as [E | [E | [E | [E | []]]]];
      rewrite <- E in *; try discriminate Gt; repeat split. }
  destruct Hkw as (Hk & Hhow & Hconv & Hthe).
  destruct (startswith (strip part) "how to") eqn:S1.
  - right. split; [exact Hk|]. split; [exact Gk|].
    apply startswith_spec in S1 as [rest S1]. rewrite S1.
    change ("how to" ++ rest) with (String "h" "ow to" ++ rest).
    rewrite replace_first_at_start. now apply contains_app_l.
  - destruct (startswith (strip part) "what").
    + destruct (contains (strip part) "convert"); [|now left].
      destruct (contains (strip part) "convert it to") eqn:C.
      * right. split; [exact Hk|]. split; [exact Gk|].
        apply (contains_trans _ _ _
                 (replace_present "convert it to" _ _ eq_refl C) Hconv).
      * left. now apply replace_absent.
    + destruct (startswith (strip part) "which"); [|now left].
      destruct (contains (strip part) "can do"); [|now left].
      destruct (contains (strip part) "this steps") eqn:C.
      * right. split; [exact Hk|]. split; [exact Gk|].
        apply (contains_trans _ _ _
                 (replace_present "this steps" _ _ eq_refl C) Hthe).
      * left. now apply replace_absent.
Qed.

(** X1: on the literal path there is one sub-question per fragment, in the
    order of the fragments.  The first is the first fragment stripped.  Each
    later one is its fragment stripped, or, where the fragment did not name
    the domain of the first fragment, a text that does.  The fragments put
    together again with the separator are the question. *)
Theorem literal_split_keeps_fragments (question : string) :
  let parts := split " and " question in
  let kw := strip (base_context_of (nth 0 parts EmptyString)) in
  List.length (literal_split parts) = List.length parts
  /\ nth 0 (literal_split parts) EmptyString = strip (nth 0 parts EmptyString)
  /\ (forall i,
        S i < List.length parts ->
        nth (S i) (literal_split parts) EmptyString
        = strip (nth (S i) parts EmptyString)
        \/ (truthy kw = true
            /\ contains (lower (strip (nth (S i) parts EmptyString))) kw
               = false
            /\ contains (nth (S i) (literal_split parts) EmptyString) kw
               = true))
  /\ join " and " parts = question.
Proof.
  intros parts kw.
  pose proof (split_at_least_one " and " question) as Hone. fold parts in Hone.
  split; [unfold literal_split; apply split_loop_length|].
  split; [unfold literal_split; now rewrite split_loop_nth by lia|].
  split; [|now apply join_split].
  intros i Hi. unfold literal_split. rewrite split_loop_nth by assumption.
  cbn [Nat.add Nat.eqb].
  apply (repair_part_cases (nth 0 parts EmptyString)
           (nth (S i) parts EmptyString)).
Qed.

Lemma literal_split_keeps_fragments_witness :
  literal_split (split " and " "Excavation lead fields and what to convert it to")
  = [ "Excavation lead fields"; "what to convert excavation lead to" ]
  /\ (nth 1 (literal_split
              (split " and "
                 "Excavation lead fields and what to convert it to"))
        EmptyString
      = strip (nth 1 (split " and "
                        "Excavation lead fields and what to convert it to")
                 EmptyString)
      \/ (truthy "excavation" = true
          /\ contains (lower (strip "what to convert it to")) "excavation"
             = false
          /\ contains (nth 1 (literal_split
                               (split " and "
                                  "Excavation lead fields and what to convert it to"))
                         EmptyString) "excavation" = true)).
Proof.
  split; [reflexivity|].
  destruct (literal_split_keeps_fragments
              "Excavation lead fields and what to convert it to")
    as (_ & _ & H & _).
  apply (H 0). simpl; lia.
Defined.

(** ** Where the removals leave nothing behind *)

Lemma mismatch_no_prefix (t p s : string) :
  mismatch t p = true -> startswith (t ++ s) p = false.
Proof.
  revert p. induction t as [|x t IH]; intros p H; [now destruct p|].
  destruct p as [|y p]; [discriminate H|].
  cbn [mismatch] in H. cbn [append]. rewrite startswith_cons.
  destruct (Ascii.eqb x y); [|reflexivity].
  cbn [negb orb andb] in *. now apply IH.
Qed.

Lemma mismatch_irrefl (t : string) : mismatch t t = false.
Proof.
  induction t as [|x t IH]; [reflexivity|].
  cbn [mismatch]. now rewrite Ascii.eqb_refl, IH.
Qed.

Lemma replace_scan_skip (old new s : string) :
  forall count skip,
    replace_scan old new count skip s
    = replace_scan old new count 0 (drop skip s).
Proof.
  induction s as [|c s IH]; intros count skip; [now destruct skip|].
  destruct skip as [|k]; [reflexivity|]. cbn [replace_scan drop]. apply IH.
Qed.

Lemma replace_nil (old new : string) :
  truthy old = true -> replace old new EmptyString = EmptyString.
Proof. destruct old; [discriminate | reflexivity]. Qed.

(** An occurrence at the start is replaced, and the scan goes on behind
    it. *)
Lemma replace_at_start (c : ascii) (p' new s : string) :
  replace (String c p') new (String c p' ++ s)
  = new ++ replace (String c p') new s.
Proof.
  unfold replace, replace_count. cbn [append replace_scan].
  change (String c (p' ++ s)) with (String c p' ++ s).
  rewrite startswith_app. cbn [exhausted negb andb spend String.length].
  replace (S (String.length p') - 1) with (String.length p') by lia.
  now rewrite replace_scan_skip, drop_app.
Qed.

Lemma replace_no_match (c0 : ascii) (s0 old new : string) :
  startswith (String c0 s0) old = false ->
  truthy old = true ->
  replace old new (String c0 s0) = String c0 (replace old new s0).
Proof.
  intros H Hold. unfold replace, replace_count.
  destruct old as [|d old]; [discriminate|].
  cbn [replace_scan exhausted negb andb]. now rewrite H.
Qed.

Lemma replace_through (c : ascii) (p' new t s : string) :
  lacks c t = true ->
  replace (String c p') new (t ++ s) = t ++ replace (String c p') new s.
Proof.
  unfold lacks. induction t as [|y t IH]; intros H; [reflexivity|].
  cbn [str_forall] in H. apply andb_true_iff in H as [Hy H].
  apply negb_true_iff in Hy. cbn [append].
  rewrite replace_no_match; [now rewrite (IH H) | | reflexivity].
  now rewrite startswith_cons, Hy.
Qed.

Lemma replace_past_token (c : ascii) (p' new t s : string) :
  mismatch t (String c p') = true -> inner_avoids c t = true ->
  replace (String c p') new (t ++ s) = t ++ replace (String c p') new s.
Proof.
  intros Hm Hi. destruct t as [|x t]; [discriminate Hm|].
  pose proof (mismatch_no_prefix _ _ s Hm) as Hs.
  cbn [inner_avoids] in Hi. cbn [append] in *.
  rewrite (replace_no_match _ _ _ _ Hs eq_refl).
  now rewrite (replace_through c p' new t s Hi).
Qed.

Section TokenPasses.

Variable special : ascii -> bool.

Lemma Tok_plain_inv (toks : list string) (c : ascii) (s : string) :
  forallb (starts_special special) toks = true ->
  special c = false ->
  Tok special toks (String c s) -> Tok special toks s.
Proof.
  intros Hst Hc H. remember (String c s) as u eqn:E.
  destruct H as [| c' s' Hc' Hs' | t s' Ht Hs']; [discriminate E| |].
  - now injection E as -> ->.
  - pose proof (proj1 (forallb_forall _ _) Hst t Ht) as Hsp.
    destruct t as [|x t]; [discriminate Hsp|].
    cbn [append starts_special] in *. injection E as -> _. congruence.
Qed.

Lemma Tok_drop (toks : list string) (p : string) :
  forallb (starts_special special) toks = true ->
  str_forall (fun x => negb (special x)) p = true ->
  forall s,
    startswith s p = true ->
    Tok special toks s -> Tok special toks (drop (String.length p) s).
Proof.
  intros Hst. induction p as [|y p IH]; intros Hp s Hs H; [now destruct s|].
  destruct s as [|x s]; [discriminate Hs|].
  rewrite startswith_cons in Hs. apply andb_true_iff in Hs as [Hxy Hs].
  apply Ascii.eqb_eq in Hxy as ->.
  cbn [str_forall] in Hp. apply andb_true_iff in Hp as [Hy Hp].
  apply negb_true_iff in Hy.
  cbn [String.length drop]. apply IH; [assumption | assumption|].
  now apply (Tok_plain_inv toks y s Hst Hy).
Qed.

Lemma Tok_nil_plain (s : string) :
  Tok special [] s -> str_forall (fun x => negb (special x)) s = true.
Proof.
  induction 1 as [| c s Hc _ IH | t s Ht _ _]; [reflexivity | | contradiction].
  cbn [str_forall]. now rewrite Hc, IH.
Qed.

Lemma made_of_sound (toks : list string) :
  forall fuel s, made_of special toks fuel s = true -> Tok special toks s.
Proof.
  induction fuel as [|n IH]; intros s H.
  - destruct s; [constructor | discriminate H].
  - destruct s as [|c s]; [constructor|].
    cbn [made_of] in H.
    destruct (find (startswith (String c s)) toks) as [t|] eqn:F.
    + apply find_some in F as [Ht Hs].
      apply startswith_spec in Hs as [rest Hs].
      rewrite Hs, drop_app in H. rewrite Hs.
      apply Tok_tok; [assumption | now apply IH].
    + apply andb_true_iff in H as [Hc H]. apply negb_true_iff in Hc.
      apply Tok_plain; [assumption | now apply IH].
Qed.

(** One removal keeps a text made of [toks] made of the texts that are
    left. *)
Lemma pass_keeps (p : string) (toks : list string) :
  pass_ok special p toks = true ->
  forall n s,
    String.length s <= n ->
    Tok special toks s ->
    Tok special (without p toks) (replace p EmptyString s).
Proof.
  intros Hok. destruct p as [|c p']; [discriminate Hok|].
  unfold pass_ok in Hok. apply andb_true_iff in Hok as [Hmode Htoks].
  assert (Hst : forallb (starts_special special) toks = true).
  { apply forallb_forall. intros t Ht.
    pose proof (proj1 (forallb_forall _ _) Htoks t Ht) as H.
    now apply andb_true_iff in H as [H _]. }
  induction n as [|n IH]; intros s Hlen H.
  - destruct s; [constructor | simpl in Hlen; lia].
  - destruct H as [| c0 s0 Hc0 Hs0 | t s0 Ht Hs0]; [constructor| |].
    + destruct (startswith (String c0 s0) (String c p')) eqn:E.
      * assert (Hplain : str_forall (fun x => negb (special x)) (String c p')
                         = true).
        { destruct (special c) eqn:Hc; [|exact Hmode].
          rewrite startswith_cons in E. apply andb_true_iff in E as [E _].
          apply Ascii.eqb_eq in E. congruence. }
        pose proof (Tok_drop toks _ Hst Hplain _ E
                      (Tok_plain special toks c0 s0 Hc0 Hs0)) as Hrest.
        apply startswith_spec in E as [rest E]. rewrite E in *.
        rewrite drop_app in Hrest. rewrite replace_at_start.
        apply IH; [|exact Hrest].
        rewrite str_length_app in Hlen. cbn [String.length] in Hlen. lia.
      * rewrite (replace_no_match _ _ _ _ E eq_refl).
        apply Tok_plain; [assumption|]. apply IH; [|assumption].
        cbn [String.length] in Hlen. lia.
    + pose proof (proj1 (forallb_forall _ _) Htoks t Ht) as Hcase.
      apply andb_true_iff in Hcase as [Hsp Hcase].
      assert (Hlen0 : String.length s0 <= n).
      { rewrite str_length_app in Hlen.
        destruct t; [discriminate Hsp | cbn [String.length] in Hlen; lia]. }
      apply orb_true_iff in Hcase as [Heq | Hdiff].
      * apply String.eqb_eq in Heq as ->. rewrite replace_at_start.
        now apply IH.
      * apply andb_true_iff in Hdiff as [Hm Hi].
        rewrite (replace_past_token _ _ _ _ _ Hm Hi).
        apply Tok_tok; [|now apply IH].
        apply filter_In. split; [assumption|].
        apply negb_true_iff, String.eqb_neq. intros ->.
        now rewrite mismatch_irrefl in Hm.
Qed.

(** So does a sequence of removals. *)
Lemma passes_keep (ps : list string) :
  forall toks s,
    passes_ok special ps toks = true ->
    Tok special toks s ->
    Tok special (after_passes ps toks) (remove_all ps s).
Proof.
  induction ps as [|p ps IH]; intros toks s Hok H; [exact H|].
  cbn [passes_ok] in Hok. apply andb_true_iff in Hok as [Hp Hps].
  unfold remove_all. cbn [fold_left after_passes].
  apply IH; [assumption|].
  now apply (pass_keeps p toks Hp (String.length s)).
Qed.

End TokenPasses.

Lemma removal_as_passes (raw : string) :
  strip_markdown (remove_all formal_phrases raw)
  = remove_all removal_passes raw.
Proof.
  unfold removal_passes, remove_all. now rewrite fold_left_app.
Qed.

Lemma str_forall_impl (p q : ascii -> bool) (s : string) :
  (forall c, p c = true -> q c = true) ->
  str_forall p s = true -> str_forall q s = true.
Proof.
  intros Hpq. induction s as [|c s IH]; intros H; [reflexivity|].
  cbn [str_forall] in *. apply andb_true_iff in H as [Hc H].
  now rewrite (Hpq c Hc), IH.
Qed.

Lemma forall_lacks_first (p : ascii -> bool) (s : string) (c : ascii)
    (q : string) :
  str_forall p s = true -> p c = false -> contains s (String c q) = false.
Proof.
  intros Hs Hc. induction s as [|d s IH]; [reflexivity|].
  cbn [str_forall] in Hs. apply andb_true_iff in Hs as [Hd Hs].
  rewrite contains_cons, startswith_cons, (IH Hs), orb_false_r.
  destruct (Ascii.eqb_spec d c) as [->|]; [congruence | reflexivity].
Qed.

Section BodyCharacters.

Variable p : ascii -> bool.
Hypothesis body_ok : forallb (str_forall p) body_texts = true.

Lemma body_in (t : string) : In t body_texts -> str_forall p t = true.
Proof. intros H. exact (proj1 (forallb_forall _ _) body_ok t H). Qed.

(** Lines 203-238 put in only the texts of [body_texts]. *)
Lemma rest_of_body_forall (t : string) :
  str_forall p t = true ->
  str_forall p (clean_lines (remove_all verbose_phrases (strip (soften t))))
  = true.
Proof.
  intros H. unfold clean_lines.
  apply join_forall; [apply body_in; in_list|].
  apply forallb_map_filter; [apply strip_forall|].
  apply split_scan_forall, remove_all_forall, strip_forall.
  unfold soften.
  repeat (apply replace_forall;
          [first [reflexivity | apply body_in; in_list]|]).
  assumption.
Qed.

End BodyCharacters.

(** When every text to be removed stands whole in the raw text, the text
    that lines 181-238 leave holds no special character. *)
Lemma whole_removed (special : ascii -> bool) (toks : list string)
    (raw : string) :
  passes_ok special removal_passes toks = true ->
  after_passes removal_passes toks = [] ->
  forallb (str_forall (fun x => negb (special x))) body_texts = true ->
  made_of special toks (String.length raw) raw = true ->
  str_forall (fun x => negb (special x)) (rewrite_body raw) = true.
Proof.
  intros Hok Hafter Hbody Hraw. unfold rewrite_body.
  rewrite removal_as_passes. apply (rest_of_body_forall _ Hbody).
  apply Tok_nil_plain. rewrite <- Hafter.
  apply passes_keep; [assumption|].
  now apply (made_of_sound special toks (String.length raw)).
Qed.

Lemma startswith_app_cases (a b t : string) :
  startswith (a ++ b) t = true ->
  startswith a t = true \/ startswith t a = true.
Proof.
  revert t. induction a as [|x a IH]; intros t H.
  - right. apply startswith_nil.
  - destruct t as [|y t]; [left; apply startswith_nil|].
    cbn [append] in H. rewrite startswith_cons in H.
    apply andb_true_iff in H as [Hxy H].
    rewrite !startswith_cons, Hxy. apply Ascii.eqb_eq in Hxy as ->.
    rewrite Ascii.eqb_refl. cbn [andb]. now apply IH.
Qed.

(** A text found in [a ++ b] lies in [a], or in [b], or begins at the end
    of [a]. *)
Lemma contains_app_cases (a b t : string) :
  contains (a ++ b) t = true ->
  contains a t = true \/ overlap a t = true \/ contains b t = true.
Proof.
  induction a as [|x a IH]; intros H; [now right; right|].
  cbn [append] in H. rewrite contains_cons in H.
  apply orb_true_iff in H as [H | H].
  - change (String x (a ++ b)) with (String x a ++ b) in H.
    apply startswith_app_cases in H as [H | H].
    + left. rewrite contains_cons, H. reflexivity.
    + right; left. cbn [overlap]. now rewrite H.
  - destruct (IH H) as [H1 | [H1 | H1]].
    + left. rewrite contains_cons, H1. apply orb_true_r.
    + right; left. cbn [overlap]. rewrite H1. apply orb_true_r.
    + now right; right.
Qed.

Lemma opener_holds_no_lead_in (P ph : string) :
  In P opener_prefixes -> In ph formal_phrases ->
  contains P ph = false /\ overlap P ph = false.
Proof.
  intros HP Hph.
  assert (H : forallb
                (fun P => forallb
                            (fun ph => negb (contains P ph)
                                       && negb (overlap P ph))
                            formal_phrases)
                opener_prefixes = true) by reflexivity.
  pose proof (proj1 (forallb_forall _ _)
                (proj1 (forallb_forall _ _) H P HP) ph Hph) as Hc.
  apply andb_true_iff in Hc as [H1 H2].
  now apply negb_true_iff in H1, H2.
Qed.

Lemma markers_plain (c : ascii) :
  negb (begins_one_of markers c) = true ->
  negb (Ascii.eqb c "*") = true /\ negb (Ascii.eqb c "-") = true.
Proof.
  unfold begins_one_of, markers. cbn [existsb].
  destruct (Ascii.eqb c "*"); [discriminate|].
  destruct (Ascii.eqb c "-"); [discriminate|]. now split.
Qed.

Lemma phrase_begins (ph : string) :
  In ph formal_phrases ->
  exists c q, ph = String c q /\ begins_one_of formal_phrases c = true.
Proof.
  intros H. destruct ph as [|c q].
  - unfold formal_phrases in H. simpl in H.
    repeat (destruct H as [H | H]; [discriminate H|]). contradiction.
  - exists c, q. split; [reflexivity|].
    apply existsb_exists. exists (String c q). split; [assumption|].
    apply Ascii.eqb_refl.
Qed.


